(** * Hoot back end: the Express handlers of [controllers/hoots.js] over the
      Mongoose schemas of [models/hoot.js]

    The handlers are embedded as pure functions on an explicit database
    state.  What the source obtains from its libraries is written out here:
    BSON object ids with their hexadecimal string form, Mongoose casting and
    validation, and the query helpers the handlers call. *)

From Stdlib Require Import ZArith NArith String Ascii Strings.Byte List Lia.
From stdpp Require Import base option list strings sorting.

Open Scope string_scope.
Open Scope list_scope.
Open Scope Z_scope.

(** ** Object ids

    A BSON [ObjectId] wraps a buffer of twelve bytes; its string form is
    the lower-case hexadecimal rendering of that buffer. *)

Module Oid.

Record ObjectId : Type := mkOid { buffer : list byte }.

#[global] Instance byte_eq_dec : EqDecision byte := Byte.byte_eq_dec.

#[global] Instance ObjectId_eq_dec : EqDecision ObjectId.
Proof. solve_decision. Defined.

(** One hexadecimal digit for a value below sixteen. *)
Definition hexDigit (n : N) : ascii :=
  if (n <? 10)%N then ascii_of_N (48 + n) else ascii_of_N (87 + n).

Definition byteToHex (b : byte) : string :=
  let n := Byte.to_N b in
  String (hexDigit (n / 16)) (String (hexDigit (n mod 16)) EmptyString).

Fixpoint bytesToHex (l : list byte) : string :=
  match l with
  | [] => EmptyString
  | b :: l' => byteToHex b +:+ bytesToHex l'
  end.

(** [ObjectId.prototype.toHexString], which [toString] returns. *)
Definition toHexString (o : ObjectId) : string := bytesToHex (buffer o).
Definition toString (o : ObjectId) : string := toHexString o.

(** Value of a hexadecimal digit, either case. *)
Definition hexValue (c : ascii) : option N :=
  let n := N_of_ascii c in
  if ((48 <=? n) && (n <=? 57))%N then Some (n - 48)%N
  else if ((97 <=? n) && (n <=? 102))%N then Some (n - 87)%N
  else if ((65 <=? n) && (n <=? 70))%N then Some (n - 55)%N
  else None.

Fixpoint bytesFromHex (s : string) : option (list byte) :=
  match s with
  | EmptyString => Some []
  | String c1 (String c2 s') =>
      match hexValue c1, hexValue c2, bytesFromHex s' with
      | Some h, Some l, Some rest =>
          match Byte.of_N (16 * h + l) with
          | Some b => Some (b :: rest)
          | None => None
          end
      | _, _, _ => None
      end
  | String _ EmptyString => None
  end.

(** [new ObjectId(s)] on a string: twenty-four hexadecimal digits, or a
    thrown error (here [None]). *)
Definition fromHexString (s : string) : option ObjectId :=
  if decide (String.length s = 24%nat)
  then mkOid <$> bytesFromHex s
  else None.

Definition lowerChar (c : ascii) : ascii :=
  let n := N_of_ascii c in
  if ((65 <=? n) && (n <=? 90))%N then ascii_of_N (n + 32) else c.

Fixpoint toLowerCase (s : string) : string :=
  match s with
  | EmptyString => EmptyString
  | String c s' => String (lowerChar c) (toLowerCase s')
  end.

(** An identifier as a JavaScript value: the string form carried by a
    token payload or a URL parameter, or a structured [ObjectId]. *)
Inductive JsId : Type :=
  | IdStr (s : string)
  | IdObj (o : ObjectId).

#[global] Instance JsId_eq_dec : EqDecision JsId.
Proof. solve_decision. Defined.

(** Mongoose's [castObjectId]: an [ObjectId] is kept, a string goes
    through the constructor. *)
Definition castObjectId (v : JsId) : option ObjectId :=
  match v with
  | IdObj o => Some o
  | IdStr s => fromHexString s
  end.

(** [ObjectId.prototype.equals]: buffers are compared for an [ObjectId]
    argument, and a string argument is lower-cased and compared with the
    hexadecimal form. *)
Definition equals (o : ObjectId) (other : JsId) : bool :=
  match other with
  | IdObj o' => bool_decide (buffer o = buffer o')
  | IdStr s => bool_decide (toLowerCase s = toHexString o)
  end.

(** JavaScript's [s !== v] with a string on the left: values of
    different types are never strictly equal. *)
Definition strictNeq (s : string) (v : JsId) : bool :=
  match v with
  | IdStr s' => bool_decide (s ≠ s')
  | IdObj _ => true
  end.

End Oid.
Export Oid.

(** ** Documents

    The two Mongoose schemas of [models/hoot.js].  A path the schema marks
    [required] is still optional in a document until validation has run,
    so such paths are options here.  Both schemas carry
    [{ timestamps: true }]. *)

Module Comment.
Record t : Type := mk {
  _id : ObjectId;
  text : option string;
  author : option ObjectId;
  createdAt : Z;
  updatedAt : Z
}.
#[global] Instance eq_dec : EqDecision t.
Proof. solve_decision. Defined.
End Comment.

Module Hoot.
Record t : Type := mk {
  _id : ObjectId;
  title : option string;
  text : option string;
  category : option string;
  author : option ObjectId;
  comments : list Comment.t;
  createdAt : Z;
  updatedAt : Z
}.
#[global] Instance eq_dec : EqDecision t.
Proof. solve_decision. Defined.
End Hoot.

(** Modelled from the spec: the user model that [ref: 'User'] names is
    not among the sources.  A user document is what [populate] puts in
    place of an author id, here its id and display name. *)
Module UserDoc.
Record t : Type := mk { _id : ObjectId; username : string }.
End UserDoc.

(** [req.user], the caller identity that [verifyToken] attaches.  The
    middleware is not among the sources, so the identity is an argument
    of every handler, and its [_id] may be a string or a structured id. *)
Module User.
Record t : Type := mk { _id : JsId; username : string }.
End User.

(** [req.body] of the hoot routes, for a request that sends at most
    the keys [title], [text], [category] and [author]; [None] is an
    absent key.  The other paths of the schema ([comments], [_id], the
    timestamps) are taken to be absent from the body. *)
Module HootBody.
Record t : Type := mk {
  title : option string;
  text : option string;
  category : option string;
  author : option JsId
}.
End HootBody.

(** [req.body] of the comment routes, for a request that sends at
    most the keys [text] and [author]. *)
Module CommentBody.
Record t : Type := mk { text : option string; author : option JsId }.
End CommentBody.

(** Generated values a request draws from its environment: the clock
    behind the timestamps and the id given to a new document. *)
Record Env : Type := mkEnv { now : Z; newId : ObjectId }.

Record Db : Type := mkDb { hoots : list Hoot.t; users : list UserDoc.t }.

(** ** Errors, responses and the handler monad *)

Inductive Error : Type :=
  | ValidationError   (* Mongoose validation, cast errors of a new document included *)
  | CastError         (* a query value that does not cast to the schema type *)
  | TypeError.        (* property access on null or undefined *)

Inductive Result (A : Type) : Type :=
  | Ok (a : A)
  | Throw (e : Error).
Arguments Ok {A} a.
Arguments Throw {A} e.

(** How an author path is shown in a response. *)
Inductive AuthorField : Type :=
  | AuthorRef (a : option ObjectId)        (* left as stored *)
  | AuthorUser (u : User.t)                (* replaced by [req.user] *)
  | AuthorDoc (d : option UserDoc.t).      (* populated; [None] is null *)

Record CommentView : Type := mkCommentView {
  cv_comment : Comment.t;
  cv_author : AuthorField
}.

Record HootView : Type := mkHootView {
  hv_hoot : Hoot.t;
  hv_author : AuthorField;
  hv_comments : list CommentView
}.

Inductive Json : Type :=
  | JNull
  | JHoot (h : HootView)
  | JHoots (l : list HootView)
  | JComment (c : CommentView)
  | JText (s : string)          (* [res.send] of a string *)
  | JMessage (s : string)       (* [{ message }] *)
  | JErr (e : Error).           (* [{ err: err.message }] *)

Record Response : Type := mkResponse { status : Z; body : Json }.

(** A computation reads and writes the database and may throw; what was
    written before a throw stays written. *)
Definition M (A : Type) : Type := Db → Db * Result A.

#[global] Instance M_ret : MRet M := λ A a db, (db, Ok a).
#[global] Instance M_bind : MBind M := λ A B f m db,
  match m db with
  | (db', Ok a) => f a db'
  | (db', Throw e) => (db', Throw e)
  end.

Definition throw {A} (e : Error) : M A := λ db, (db, Throw e).
Definition getDb : M Db := λ db, (db, Ok db).
Definition putHoots (l : list Hoot.t) : M unit :=
  λ db, (mkDb l (users db), Ok tt).

(** Reading a property of [null] or [undefined] throws a [TypeError]. *)
Definition deref {A} (v : option A) : M A :=
  match v with
  | Some a => mret a
  | None => throw TypeError
  end.

(** [try { ... } catch (err) { res.status(500).json({ err: err.message }) }] *)
Definition tryCatch (handler : M Response) (db : Db) : Db * Response :=
  match handler db with
  | (db', Ok r) => (db', r)
  | (db', Throw e) => (db', mkResponse 500 (JErr e))
  end.

(** ** Schema validation

    [required: true] on a [String] path rejects a missing value and the
    empty string; [enum] rejects a present value outside the list. *)

Definition categories : list string :=
  ["News"; "Sports"; "Games"; "Movies"; "Music"; "Television"].

Definition required (v : option string) : bool :=
  match v with
  | Some s => negb (String.eqb s "")
  | None => false
  end.

Definition enum (allowed : list string) (v : option string) : bool :=
  match v with
  | Some s => bool_decide (s ∈ allowed)
  | None => true
  end.

Definition validateComment (c : Comment.t) : bool := required (Comment.text c).

Definition validateHoot (h : Hoot.t) : bool :=
  required (Hoot.title h) && required (Hoot.text h) &&
  required (Hoot.category h) && enum categories (Hoot.category h) &&
  forallb validateComment (Hoot.comments h).

(** Casting of an [ObjectId] path: an absent key stays absent, a value
    that does not cast is an error (outer [None]). *)
Definition castAuthor (v : option JsId) : option (option ObjectId) :=
  match v with
  | None => Some None
  | Some id => Some <$> castObjectId id
  end.

(** ** The [Hoot] model: queries on the collection *)

Definition hasId (o : ObjectId) (h : Hoot.t) : bool :=
  bool_decide (Hoot._id h = o).

Fixpoint replaceOne (o : ObjectId) (h' : Hoot.t) (l : list Hoot.t) : list Hoot.t :=
  match l with
  | [] => []
  | h :: l' => if hasId o h then h' :: l' else h :: replaceOne o h' l'
  end.

Fixpoint deleteOne (o : ObjectId) (l : list Hoot.t) : list Hoot.t :=
  match l with
  | [] => []
  | h :: l' => if hasId o h then l' else h :: deleteOne o l'
  end.

(** A query by id casts its argument first. *)
Definition castId (id : string) : M ObjectId :=
  match castObjectId (IdStr id) with
  | Some o => mret o
  | None => throw CastError
  end.

(** [Hoot.create(body)] for a body of the four keys: the new document
    gets a generated id, an empty comment list and both timestamps at
    the time of the request. *)
Definition Hoot_create (env : Env) (body : HootBody.t) : M Hoot.t :=
  match castAuthor (HootBody.author body) with
  | None => throw ValidationError
  | Some a =>
      let hoot :=
        Hoot.mk (newId env) (HootBody.title body) (HootBody.text body)
          (HootBody.category body) a [] (now env) (now env) in
      if validateHoot hoot
      then db ← getDb; putHoots (hoots db ++ [hoot]);; mret hoot
      else throw ValidationError
  end.

(** [Hoot.findById(id)]: the document, or null. *)
Definition Hoot_findById (id : string) : M (option Hoot.t) :=
  o ← castId id;
  db ← getDb;
  mret (List.find (hasId o) (hoots db)).

(** The [$set] that [findByIdAndUpdate] builds from a body of the four
    keys: every key the body has overwrites the path, and [updatedAt]
    is refreshed.  No validator runs ([runValidators] is not set). *)
Definition applyUpdate (env : Env) (body : HootBody.t) (a : option ObjectId)
    (h : Hoot.t) : Hoot.t :=
  Hoot.mk (Hoot._id h)
    (from_option Some (Hoot.title h) (HootBody.title body))
    (from_option Some (Hoot.text h) (HootBody.text body))
    (from_option Some (Hoot.category h) (HootBody.category body))
    (from_option Some (Hoot.author h) a)
    (Hoot.comments h) (Hoot.createdAt h) (now env).

(** [Hoot.findByIdAndUpdate(id, body, { new: true })] *)
Definition Hoot_findByIdAndUpdate (env : Env) (id : string) (body : HootBody.t)
    : M (option Hoot.t) :=
  o ← castId id;
  match castAuthor (HootBody.author body) with
  | None => throw CastError
  | Some a =>
      db ← getDb;
      match List.find (hasId o) (hoots db) with
      | None => mret None
      | Some h =>
          let h' := applyUpdate env body a h in
          putHoots (replaceOne o h' (hoots db));; mret (Some h')
      end
  end.

(** [Hoot.findByIdAndDelete(id)] *)
Definition Hoot_findByIdAndDelete (id : string) : M (option Hoot.t) :=
  o ← castId id;
  db ← getDb;
  match List.find (hasId o) (hoots db) with
  | None => mret None
  | Some h => putHoots (deleteOne o (hoots db));; mret (Some h)
  end.

(** [hoot.save()] of a loaded document: validation of the whole
    document, then the write under the document's id, which refreshes
    [updatedAt].  Every save is taken to write; a save that finds
    nothing modified, which the library skips, leaves the same paths
    except for the timestamps. *)
Definition touch (env : Env) (hoot : Hoot.t) : Hoot.t :=
  Hoot.mk (Hoot._id hoot) (Hoot.title hoot) (Hoot.text hoot)
    (Hoot.category hoot) (Hoot.author hoot) (Hoot.comments hoot)
    (Hoot.createdAt hoot) (now env).

Definition Hoot_save (env : Env) (hoot : Hoot.t) : M Hoot.t :=
  if validateHoot hoot
  then
    let saved := touch env hoot in
    db ← getDb; putHoots (replaceOne (Hoot._id hoot) saved (hoots db));;
    mret saved
  else throw ValidationError.

(** [.sort({ createdAt: "desc" })] *)
Definition newerFirst (a b : Hoot.t) : Prop :=
  Hoot.createdAt b ≤ Hoot.createdAt a.

#[global] Instance newerFirst_dec : RelDecision newerFirst.
Proof. intros a b; unfold newerFirst; apply _. Defined.

#[global] Instance newerFirst_total : Total newerFirst.
Proof. intros a b. unfold newerFirst. lia. Qed.

#[global] Instance newerFirst_trans : Transitive newerFirst.
Proof. intros a b c. unfold newerFirst. lia. Qed.

Definition sortByCreatedAtDesc (l : list Hoot.t) : list Hoot.t :=
  merge_sort newerFirst l.

(** [populate]: the referenced user document, null when there is none;
    a missing reference is left alone. *)
Definition populate (us : list UserDoc.t) (a : option ObjectId) : AuthorField :=
  match a with
  | None => AuthorRef None
  | Some o => AuthorDoc (List.find (λ u, bool_decide (UserDoc._id u = o)) us)
  end.

Definition plainComment (c : Comment.t) : CommentView :=
  mkCommentView c (AuthorRef (Comment.author c)).

Definition plainHoot (h : Hoot.t) : HootView :=
  mkHootView h (AuthorRef (Hoot.author h)) (plainComment <$> Hoot.comments h).

(** [.populate("author")] *)
Definition populateAuthor (us : list UserDoc.t) (h : Hoot.t) : HootView :=
  mkHootView h (populate us (Hoot.author h)) (plainComment <$> Hoot.comments h).

(** [.populate(['author', 'comments.author'])] *)
Definition populateAll (us : list UserDoc.t) (h : Hoot.t) : HootView :=
  mkHootView h (populate us (Hoot.author h))
    ((λ c, mkCommentView c (populate us (Comment.author c))) <$> Hoot.comments h).

(** [doc._doc.author = req.user] *)
Definition withUser (u : User.t) (h : Hoot.t) : HootView :=
  mkHootView h (AuthorUser u) (plainComment <$> Hoot.comments h).

(** ** The comment array of a loaded hoot *)

(** [comments.id(id)]: the first subdocument whose [_id] is the cast of
    [id]; null when the cast fails or nothing matches. *)
Definition comments_id (cs : list Comment.t) (id : string) : option Comment.t :=
  match castObjectId (IdStr id) with
  | Some o => List.find (λ c, bool_decide (Comment._id c = o)) cs
  | None => None
  end.

(** [comments.remove({ _id: id })]: every subdocument with that [_id]
    is pulled, the others keep their order. *)
Definition comments_remove (cs : list Comment.t) (id : string) : list Comment.t :=
  match castObjectId (IdStr id) with
  | Some o => List.filter (λ c, negb (bool_decide (Comment._id c = o))) cs
  | None => cs
  end.

(** [comments.push(body)] for a body of the two keys: the body cast to
    a subdocument with a generated id and both timestamps at the time
    of the request; [None] when a path fails to cast, which [save]
    then reports. *)
Definition castComment (env : Env) (body : CommentBody.t) : option Comment.t :=
  a ← castAuthor (CommentBody.author body);
  Some (Comment.mk (newId env) (CommentBody.text body) a (now env) (now env)).

Definition setComments (h : Hoot.t) (cs : list Comment.t) : Hoot.t :=
  Hoot.mk (Hoot._id h) (Hoot.title h) (Hoot.text h) (Hoot.category h)
    (Hoot.author h) cs (Hoot.createdAt h) (Hoot.updatedAt h).

(** [comment.text = text] on the subdocument that [comments.id] found. *)
Fixpoint setCommentText (env : Env) (o : ObjectId) (text : option string)
    (cs : list Comment.t) : list Comment.t :=
  match cs with
  | [] => []
  | c :: cs' =>
      if bool_decide (Comment._id c = o)
      then Comment.mk (Comment._id c) text (Comment.author c)
             (Comment.createdAt c) (now env) :: cs'
      else c :: setCommentText env o text cs'
  end.

(** ** The route handlers of [controllers/hoots.js]

    Each [*_try] is the body of the handler's [try] block; the handler
    itself wraps it in the catch-all that answers 500. *)

Definition forbiddenHoot : Response :=
  mkResponse 403 (JText "You're not allowed to do that!").

(** [router.post("/")] *)
Definition createHoot_try (env : Env) (user : User.t) (body : HootBody.t)
    : M Response :=
  let body :=
    HootBody.mk (HootBody.title body) (HootBody.text body)
      (HootBody.category body) (Some (User._id user)) in
  hoot ← Hoot_create env body;
  mret (mkResponse 201 (JHoot (withUser user hoot))).

Definition createHoot env user body : Db → Db * Response :=
  tryCatch (createHoot_try env user body).

(** [router.get("/")] *)
Definition indexHoots_try : M Response :=
  db ← getDb;
  let hoots := populateAuthor (users db) <$> sortByCreatedAtDesc (hoots db) in
  mret (mkResponse 200 (JHoots hoots)).

Definition indexHoots : Db → Db * Response := tryCatch indexHoots_try.

(** [router.get("/:hootId")] *)
Definition showHoot_try (hootId : string) : M Response :=
  hoot ← Hoot_findById hootId;
  db ← getDb;
  mret (mkResponse 200
          (from_option (λ h, JHoot (populateAll (users db) h)) JNull hoot)).

Definition showHoot hootId : Db → Db * Response :=
  tryCatch (showHoot_try hootId).

(** [router.get("/:hootId")] as the second controller file of the
    sources has it: only the hoot's own author is populated. *)
Definition showHootAuthorOnly_try (hootId : string) : M Response :=
  hoot ← Hoot_findById hootId;
  db ← getDb;
  mret (mkResponse 200
          (from_option (λ h, JHoot (populateAuthor (users db) h)) JNull hoot)).

Definition showHootAuthorOnly hootId : Db → Db * Response :=
  tryCatch (showHootAuthorOnly_try hootId).

(** [router.put("/:hootId")] *)
Definition updateHoot_try (env : Env) (user : User.t) (hootId : string)
    (body : HootBody.t) : M Response :=
  hoot ← Hoot_findById hootId;
  hoot ← deref hoot;
  author ← deref (Hoot.author hoot);
  if negb (equals author (User._id user))
  then mret forbiddenHoot
  else
    updatedHoot ← Hoot_findByIdAndUpdate env hootId body;
    updatedHoot ← deref updatedHoot;
    mret (mkResponse 200 (JHoot (withUser user updatedHoot))).

Definition updateHoot env user hootId body : Db → Db * Response :=
  tryCatch (updateHoot_try env user hootId body).

(** [router.delete("/:hootId")] *)
Definition deleteHoot_try (user : User.t) (hootId : string) : M Response :=
  hoot ← Hoot_findById hootId;
  hoot ← deref hoot;
  author ← deref (Hoot.author hoot);
  if negb (equals author (User._id user))
  then mret forbiddenHoot
  else
    deletedHoot ← Hoot_findByIdAndDelete hootId;
    mret (mkResponse 200 (from_option (λ h, JHoot (plainHoot h)) JNull deletedHoot)).

Definition deleteHoot user hootId : Db → Db * Response :=
  tryCatch (deleteHoot_try user hootId).

(** [router.post("/:hootId/comments")] *)
Definition createComment_try (env : Env) (user : User.t) (hootId : string)
    (body : CommentBody.t) : M Response :=
  let body := CommentBody.mk (CommentBody.text body) (Some (User._id user)) in
  hoot ← Hoot_findById hootId;
  hoot ← deref hoot;
  match castComment env body with
  | None => throw ValidationError
  | Some c =>
      let hoot := setComments hoot (Hoot.comments hoot ++ [c]) in
      hoot ← Hoot_save env hoot;
      newComment ← deref (last (Hoot.comments hoot));
      mret (mkResponse 201 (JComment (mkCommentView newComment (AuthorUser user))))
  end.

Definition createComment env user hootId body : Db → Db * Response :=
  tryCatch (createComment_try env user hootId body).

(** [router.put("/:hootId/comments/:commentId")] *)
Definition updateComment_try (env : Env) (user : User.t)
    (hootId commentId : string) (body : CommentBody.t) : M Response :=
  hoot ← Hoot_findById hootId;
  hoot ← deref hoot;
  comment ← deref (comments_id (Hoot.comments hoot) commentId);
  author ← deref (Comment.author comment);
  if strictNeq (toString author) (User._id user)
  then mret (mkResponse 403
               (JMessage "You are not authorized to edit this comment"))
  else
    let cs := setCommentText env (Comment._id comment)
                (CommentBody.text body) (Hoot.comments hoot) in
    Hoot_save env (setComments hoot cs);;
    mret (mkResponse 200 (JMessage "Comment updated successfully")).

Definition updateComment env user hootId commentId body : Db → Db * Response :=
  tryCatch (updateComment_try env user hootId commentId body).

(** [router.delete("/:hootId/comments/:commentId")] *)
Definition deleteComment_try (env : Env) (user : User.t)
    (hootId commentId : string) : M Response :=
  hoot ← Hoot_findById hootId;
  hoot ← deref hoot;
  comment ← deref (comments_id (Hoot.comments hoot) commentId);
  author ← deref (Comment.author comment);
  if strictNeq (toString author) (User._id user)
  then mret (mkResponse 403
               (JMessage "You are not authorized to delete this comment"))
  else
    let cs := comments_remove (Hoot.comments hoot) commentId in
    Hoot_save env (setComments hoot cs);;
    mret (mkResponse 200 (JMessage "Comment deleted successfully")).

Definition deleteComment env user hootId commentId : Db → Db * Response :=
  tryCatch (deleteComment_try env user hootId commentId).

(** ** Sample data *)

Definition oidA : ObjectId :=
  mkOid [x65; x4a; x1b; x2c; x3d; x4e; x5f; x60; x71; x82; x93; xa1].
Definition oidB : ObjectId :=
  mkOid [x65; x4a; x1b; x2c; x3d; x4e; x5f; x60; x71; x82; x93; xb2].
Definition oidH : ObjectId :=
  mkOid [x66; x00; x00; x00; x00; x00; x00; x00; x00; x00; x00; x01].
Definition oidC1 : ObjectId :=
  mkOid [x67; x00; x00; x00; x00; x00; x00; x00; x00; x00; x00; xc1].
Definition oidC2 : ObjectId :=
  mkOid [x67; x00; x00; x00; x00; x00; x00; x00; x00; x00; x00; xc2].
Definition oidC3 : ObjectId :=
  mkOid [x67; x00; x00; x00; x00; x00; x00; x00; x00; x00; x00; xc3].

Definition alice : User.t := User.mk (IdStr (toString oidA)) "alice".
Definition bob : User.t := User.mk (IdStr (toString oidB)) "bob".
(** Alice again, with her [_id] as a structured id. *)
Definition aliceObj : User.t := User.mk (IdObj oidA) "alice".

Definition c1 : Comment.t := Comment.mk oidC1 (Some "first") (Some oidB) 10 10.
Definition c2 : Comment.t := Comment.mk oidC2 (Some "second") (Some oidA) 11 11.
Definition c3 : Comment.t := Comment.mk oidC3 (Some "third") (Some oidB) 12 12.

Definition hoot1 : Hoot.t :=
  Hoot.mk oidH (Some "Hi") (Some "World") (Some "News") (Some oidA)
    [c1; c2; c3] 5 12.

Definition db1 : Db :=
  mkDb [hoot1] [UserDoc.mk oidA "alice"; UserDoc.mk oidB "bob"].

(** A comment that carries the id of [c2], and a hoot holding both. *)
Definition c2twin : Comment.t :=
  Comment.mk oidC2 (Some "third") (Some oidB) 12 12.

Definition hootTwin : Hoot.t :=
  Hoot.mk oidH (Some "Hi") (Some "World") (Some "News") (Some oidA)
    [c1; c2; c2twin] 5 12.

Definition dbTwin : Db :=
  mkDb [hootTwin] [UserDoc.mk oidA "alice"; UserDoc.mk oidB "bob"].

Definition oidH2 : ObjectId :=
  mkOid [x66; x00; x00; x00; x00; x00; x00; x00; x00; x00; x00; x02].

Definition hoot2 : Hoot.t :=
  Hoot.mk oidH2 (Some "Scores") (Some "Owls win") (Some "Sports") (Some oidB)
    [] 7 7.

Definition db2 : Db :=
  mkDb [hoot1; hoot2] [UserDoc.mk oidA "alice"; UserDoc.mk oidB "bob"].

Definition oidC4 : ObjectId :=
  mkOid [x67; x00; x00; x00; x00; x00; x00; x00; x00; x00; x00; xc4].

Definition env1 : Env := mkEnv 20 oidC4.

(** ** Vocabulary of the statements *)

(** A well-formed object id has a buffer of twelve bytes. *)
Definition wfOid (o : ObjectId) : Prop := length (buffer o) = 12%nat.

(** The user a caller id stands for: the object id it casts to, which is
    how the create routes derive a stored [author] from [req.user._id]. *)
Definition denotes (caller : JsId) (a : ObjectId) : Prop :=
  castObjectId caller = Some a.

(** [hoot] is the document that the URL parameter [hootId] selects. *)
Definition stored (db : Db) (hootId : string) (hoot : Hoot.t) : Prop :=
  ∃ o, castObjectId (IdStr hootId) = Some o ∧
       List.find (hasId o) (hoots db) = Some hoot.

(** [db'] is [db] except, at most, for the document that [hootId]
    selects, which keeps its id and its author. *)
Definition writesAtMost (hootId : string) (db db' : Db) : Prop :=
  db' = db ∨
  ∃ hoot h', stored db hootId hoot ∧ Hoot._id h' = Hoot._id hoot ∧
             Hoot.author h' = Hoot.author hoot ∧
             db' = mkDb (replaceOne (Hoot._id hoot) h' (hoots db)) (users db).

(** No document of [l] is selected by the URL parameter [id]. *)
Definition absentId {A} (_id : A → ObjectId) (id : string) (l : list A) : Prop :=
  ∀ x, x ∈ l → castObjectId (IdStr id) ≠ Some (_id x).

Definition emptyText (v : option string) : Prop := v = None ∨ v = Some "".

Definition nonEmpty (v : option string) : Prop := ∃ s, v = Some s ∧ s ≠ "".

Definition allowedCategory (v : option string) : Prop :=
  ∃ c, v = Some c ∧ c ∈ categories.

(** Every stored hoot passes the schema's validators. *)
Definition validDb (db : Db) : Prop :=
  Forall (λ h, validateHoot h = true) (hoots db).

(** No two stored hoots share an [_id]. *)
Definition uniqueIds (db : Db) : Prop := NoDup (Hoot._id <$> hoots db).

(** [h'] is [h] except, at most, for its comments and [updatedAt]. *)
Definition ownPathsKept (h h' : Hoot.t) : Prop :=
  Hoot._id h' = Hoot._id h ∧ Hoot.title h' = Hoot.title h ∧
  Hoot.text h' = Hoot.text h ∧ Hoot.category h' = Hoot.category h ∧
  Hoot.author h' = Hoot.author h ∧ Hoot.createdAt h' = Hoot.createdAt h.

(** [db'] is [db], or [db] after a validated [save] of the hoot that
    [hootId] selects with a new comment list. *)
Definition savesComments (env : Env) (hootId : string) (db db' : Db) : Prop :=
  db' = db ∨
  ∃ hoot cs,
    stored db hootId hoot ∧ validateHoot (setComments hoot cs) = true ∧
    db' = mkDb (replaceOne (Hoot._id hoot) (touch env (setComments hoot cs))
                  (hoots db)) (users db).

(** The 403 answer of the comment routes. *)
Definition commentForbidden (what : string) : Response :=
  mkResponse 403
    (JMessage ("You are not authorized to " +:+ what +:+ " this comment")).

(** The error a route meets when its [hootId] selects no hoot: the
    cast error of the query, or the type error of reading from null. *)
Definition missingHootError (hootId : string) : Error :=
  match castObjectId (IdStr hootId) with
  | Some _ => TypeError
  | None => CastError
  end.

(** ** Proof support *)

#[global] Arguments equals : simpl never.
#[global] Arguments strictNeq : simpl never.
#[global] Arguments castObjectId : simpl never.
#[global] Arguments validateHoot : simpl never.
#[global] Arguments comments_id : simpl never.
#[global] Arguments comments_remove : simpl never.
#[global] Arguments Hoot_save : simpl never.

(** Unfolds the monad so that a handler run reduces by [cbn]. *)
Ltac unfold_M :=
  unfold deref; unfold mbind, M_bind;
  unfold mret, M_ret, throw, getDb, putHoots.

(** * Properties *)

(** ** Object ids and their string form *)

Example toHexString_example :
  toHexString (mkOid [x00; x1f; xa0; xff]) = "001fa0ff".
Proof. reflexivity. Qed.

Lemma hexValue_lowerChar c : hexValue (lowerChar c) = hexValue c.
Proof. destruct c as [[] [] [] [] [] [] [] []]; reflexivity. Qed.

Lemma bytesFromHex_byteToHex b s :
  bytesFromHex (byteToHex b +:+ s) =
  match bytesFromHex s with Some rest => Some (b :: rest) | None => None end.
Proof. destruct b; reflexivity. Qed.

Lemma bytesFromHex_bytesToHex l : bytesFromHex (bytesToHex l) = Some l.
Proof.
  induction l as [|b l IH]; [reflexivity|].
  cbn [bytesToHex]. rewrite bytesFromHex_byteToHex, IH. reflexivity.
Qed.

Lemma length_bytesToHex l :
  String.length (bytesToHex l) = (2 * length l)%nat.
Proof.
  induction l as [|b l IH]; [reflexivity|].
  change (S (S (String.length (bytesToHex l))) = (2 * S (length l))%nat).
  lia.
Qed.

Lemma length_toLowerCase s : String.length (toLowerCase s) = String.length s.
Proof. induction s as [|c s IH]; cbn; congruence. Qed.

Lemma bytesFromHex_toLowerCase s :
  bytesFromHex (toLowerCase s) = bytesFromHex s.
Proof.
  assert (H : ∀ s, bytesFromHex (toLowerCase s) = bytesFromHex s ∧
                   ∀ c, bytesFromHex (toLowerCase (String c s)) =
                        bytesFromHex (String c s)).
  { clear s. induction s as [|c' s [IH1 IH2]].
    - split; [reflexivity|]. intros c. reflexivity.
    - split; [apply IH2|]. intros c.
      cbn [toLowerCase bytesFromHex].
      rewrite !hexValue_lowerChar.
      cbn [toLowerCase] in IH1. rewrite IH1. reflexivity. }
  apply H.
Qed.

Lemma fromHexString_toHexString o :
  wfOid o → fromHexString (toHexString o) = Some o.
Proof.
  intros Hwf. unfold fromHexString, toHexString.
  rewrite length_bytesToHex, Hwf. cbn [decide].
  rewrite decide_True by reflexivity.
  rewrite bytesFromHex_bytesToHex. destruct o; reflexivity.
Qed.

(** Whatever [equals] accepts casts to the id it was compared with. *)
Lemma equals_denotes a v : wfOid a → equals a v = true → denotes v a.
Proof.
  intros Hwf He. unfold denotes, castObjectId, equals in *.
  destruct v as [s|o].
  - apply bool_decide_eq_true in He.
    unfold fromHexString.
    rewrite <- (length_toLowerCase s), He.
    unfold toHexString. rewrite length_bytesToHex, Hwf.
    rewrite decide_True by reflexivity.
    rewrite <- bytesFromHex_toLowerCase, He.
    unfold toHexString. rewrite bytesFromHex_bytesToHex.
    destruct a; reflexivity.
  - apply bool_decide_eq_true in He.
    destruct a, o; cbn in *; congruence.
Qed.

(** ** The collection *)

Lemma find_hasId o l h : List.find (hasId o) l = Some h → Hoot._id h = o.
Proof.
  intros H. apply List.find_some in H as [_ H].
  unfold hasId in H. by apply bool_decide_eq_true in H.
Qed.

Lemma length_replaceOne o h' l : length (replaceOne o h' l) = length l.
Proof.
  induction l as [|h l IH]; [reflexivity|].
  cbn [replaceOne]. destruct (hasId o h); cbn; congruence.
Qed.

Lemma replaceOne_lookup_other o h' l i other :
  l !! i = Some other → Hoot._id other ≠ o →
  replaceOne o h' l !! i = Some other.
Proof.
  revert i. induction l as [|h l IH]; intros i Hi Hne; [done|].
  cbn [replaceOne]. destruct i as [|i]; cbn in Hi.
  - injection Hi as ->. unfold hasId.
    rewrite bool_decide_eq_false_2 by done. reflexivity.
  - destruct (hasId o h); cbn; [done|]. by apply IH.
Qed.

Lemma find_replaceOne o h' l h :
  List.find (hasId o) l = Some h → Hoot._id h' = o →
  List.find (hasId o) (replaceOne o h' l) = Some h'.
Proof.
  intros Hf Hid. induction l as [|x l IH]; [done|].
  cbn [replaceOne List.find] in *. destruct (hasId o x) eqn:Hx.
  - cbn [List.find]. unfold hasId at 1.
    rewrite bool_decide_eq_true_2 by done. reflexivity.
  - cbn [List.find]. rewrite Hx. by apply IH.
Qed.

Lemma find_absent {A} (f : A → bool) l :
  (∀ x, x ∈ l → f x = false) → List.find f l = None.
Proof.
  induction l as [|x l IH]; intros H; [reflexivity|].
  cbn [List.find]. rewrite (H x) by constructor.
  apply IH. intros y Hy. apply H. by constructor.
Qed.

(** ** Running queries and handlers *)

Lemma findById_cast id o db :
  castObjectId (IdStr id) = Some o →
  Hoot_findById id db = (db, Ok (List.find (hasId o) (hoots db))).
Proof. intros Hc. unfold Hoot_findById, castId. rewrite Hc. reflexivity. Qed.

Lemma findById_nocast id db :
  castObjectId (IdStr id) = None →
  Hoot_findById id db = (db, Throw CastError).
Proof. intros Hc. unfold Hoot_findById, castId. rewrite Hc. reflexivity. Qed.

Lemma findById_stored db hootId hoot :
  stored db hootId hoot → Hoot_findById hootId db = (db, Ok (Some hoot)).
Proof. intros (o & Hc & Hf). by rewrite (findById_cast _ o), Hf. Qed.

Lemma stored_id db hootId hoot :
  stored db hootId hoot →
  castObjectId (IdStr hootId) = Some (Hoot._id hoot).
Proof. intros (o & Hc & Hf). by rewrite (find_hasId _ _ _ Hf). Qed.

(** The ownership check of the hoot routes, on a caller who is not the
    author. *)
Lemma updateHoot_try_forbidden env user hootId body db hoot a :
  stored db hootId hoot → Hoot.author hoot = Some a →
  equals a (User._id user) = false →
  updateHoot_try env user hootId body db = (db, Ok forbiddenHoot).
Proof.
  intros Hs Ha He. unfold updateHoot_try.
  unfold mbind at 1, M_bind. rewrite (findById_stored _ _ _ Hs).
  unfold_M. cbn. rewrite Ha. cbn. rewrite He. reflexivity.
Qed.

Lemma deleteHoot_try_forbidden user hootId db hoot a :
  stored db hootId hoot → Hoot.author hoot = Some a →
  equals a (User._id user) = false →
  deleteHoot_try user hootId db = (db, Ok forbiddenHoot).
Proof.
  intros Hs Ha He. unfold deleteHoot_try.
  unfold mbind at 1, M_bind. rewrite (findById_stored _ _ _ Hs).
  unfold_M. cbn. rewrite Ha. cbn. rewrite He. reflexivity.
Qed.

(** C3. For every stored hoot and every caller whose id does not stand
    for the hoot's author, both [PUT /:hootId] and [DELETE /:hootId]
    answer 403: the [try] block returns at the ownership check without
    an error, before any write, and the database (hence the stored
    hoot) is the one the request found. *)
Theorem C3_nonauthor_forbidden env user hootId body db hoot a :
  stored db hootId hoot →
  Hoot.author hoot = Some a → wfOid a →
  ¬ denotes (User._id user) a →
  updateHoot_try env user hootId body db = (db, Ok forbiddenHoot) ∧
  deleteHoot_try user hootId db = (db, Ok forbiddenHoot) ∧
  updateHoot env user hootId body db = (db, forbiddenHoot) ∧
  deleteHoot user hootId db = (db, forbiddenHoot) ∧
  status forbiddenHoot = 403 ∧
  stored db hootId hoot.
Proof.
  intros Hs Ha Hwf Hne.
  assert (He : equals a (User._id user) = false).
  { destruct (equals a (User._id user)) eqn:E; [|done].
    exfalso. apply Hne. by apply equals_denotes. }
  pose proof (updateHoot_try_forbidden env user hootId body db hoot a Hs Ha He) as Hu.
  pose proof (deleteHoot_try_forbidden user hootId db hoot a Hs Ha He) as Hd.
  repeat split; try done.
  - unfold updateHoot, tryCatch. by rewrite Hu.
  - unfold deleteHoot, tryCatch. by rewrite Hd.
Qed.

Lemma C3_nonauthor_forbidden_witness :
  updateHoot env1 bob (toString oidH)
    (HootBody.mk (Some "Mine now") None None None) db1 = (db1, forbiddenHoot) ∧
  deleteHoot bob (toString oidH) db1 = (db1, forbiddenHoot).
Proof.
  assert (Hs : stored db1 (toString oidH) hoot1).
  { exists oidH. split; reflexivity. }
  assert (Hne : ¬ denotes (User._id bob) oidA).
  { unfold denotes. vm_compute. discriminate. }
  destruct (C3_nonauthor_forbidden env1 bob (toString oidH)
              (HootBody.mk (Some "Mine now") None None None) db1 hoot1 oidA
              Hs eq_refl eq_refl Hne) as (_ & _ & Hu & Hd & _).
  split; assumption.
Defined.

(** ** Reading a hoot that is not there *)

Lemma find_absentId o (l : list Hoot.t) id :
  castObjectId (IdStr id) = Some o → absentId Hoot._id id l →
  List.find (hasId o) l = None.
Proof.
  intros Hc Habs. apply find_absent. intros x Hx.
  unfold hasId. apply bool_decide_eq_false_2. intros Heq.
  apply (Habs x Hx). by rewrite Hc, Heq.
Qed.

(** C4, as the source has it. For every id that selects no stored hoot,
    [GET /:hootId] does not fail with a not-found error: an id that casts
    to an object id is answered with status 200 and a null body, an id
    that does not cast is answered with status 500 for the cast error;
    the database is unchanged either way. *)
Theorem C4_show_absent db hootId :
  absentId Hoot._id hootId (hoots db) →
  showHoot hootId db =
    (db, match castObjectId (IdStr hootId) with
         | Some _ => mkResponse 200 JNull
         | None => mkResponse 500 (JErr CastError)
         end).
Proof.
  intros Habs. unfold showHoot, tryCatch, showHoot_try.
  unfold mbind at 1, M_bind.
  destruct (castObjectId (IdStr hootId)) as [o|] eqn:Hc.
  - rewrite (findById_cast _ o) by done.
    rewrite (find_absentId o _ hootId) by done. reflexivity.
  - rewrite findById_nocast by done. reflexivity.
Qed.

Lemma C4_show_absent_witness :
  showHoot (toString oidA) db1 = (db1, mkResponse 200 JNull).
Proof.
  apply (C4_show_absent db1 (toString oidA)).
  intros x Hx. apply list_elem_of_In in Hx.
  destruct Hx as [<-|[]]. vm_compute. discriminate.
Defined.

(** C4 as claimed does not hold: no hoot has the id of user A, and the
    route still answers 200 from a [try] block that threw nothing. *)
Lemma C4_counterexample :
  absentId Hoot._id (toString oidA) (hoots db1) ∧
  showHoot_try (toString oidA) db1 = (db1, Ok (mkResponse 200 JNull)) ∧
  ¬ (∃ e, snd (showHoot_try (toString oidA) db1) = Throw e) ∧
  status (snd (showHoot (toString oidA) db1)) = 200.
Proof.
  split; [|split; [reflexivity|split; [|reflexivity]]].
  - intros x Hx. apply list_elem_of_In in Hx.
    destruct Hx as [<-|[]]. vm_compute. discriminate.
  - intros [e He]. vm_compute in He. discriminate.
Qed.

(** ** Creating a hoot *)

Lemma required_emptyText v : emptyText v → required v = false.
Proof. by intros [->| ->]. Qed.

Lemma enum_outside v :
  (∀ c, v = Some c → c ∉ categories) → required v && enum categories v = false.
Proof.
  intros H. destruct v as [c|]; [|reflexivity].
  cbn [enum]. rewrite (bool_decide_eq_false_2 _ (H c eq_refl)).
  apply andb_false_r.
Qed.

(** C6. A create request whose category is missing or outside the six
    allowed values, or whose title or text is missing or empty, is
    rejected: [Hoot.create] throws a validation error, which the route
    reports with status 500, and the database is unchanged, so no hoot
    is stored. *)
Theorem C6_create_rejects_invalid env user body db :
  (∀ c, HootBody.category body = Some c → c ∉ categories) ∨
  emptyText (HootBody.title body) ∨ emptyText (HootBody.text body) →
  createHoot_try env user body db = (db, Throw ValidationError) ∧
  createHoot env user body db = (db, mkResponse 500 (JErr ValidationError)).
Proof.
  intros H.
  assert (Ht : createHoot_try env user body db = (db, Throw ValidationError)).
  { unfold createHoot_try, Hoot_create. cbn [HootBody.author castAuthor].
    destruct (castObjectId (User._id user)) as [a|]; [|reflexivity].
    cbn [fmap option_fmap option_map].
    match goal with |- context [validateHoot ?h] =>
      assert (Hv : validateHoot h = false) end.
    { unfold validateHoot. cbn.
      destruct H as [H|[H|H]].
      - rewrite <- !andb_assoc.
        rewrite (andb_assoc (required (HootBody.category body))).
        rewrite (enum_outside _ H). by rewrite !andb_false_r.
      - by rewrite (required_emptyText _ H).
      - rewrite (required_emptyText _ H). by rewrite andb_false_r. }
    rewrite Hv. reflexivity. }
  split; [done|]. unfold createHoot, tryCatch. by rewrite Ht.
Qed.

Lemma C6_create_rejects_invalid_witness :
  createHoot env1 bob (HootBody.mk (Some "Hi") (Some "World") (Some "Weather") None) db1
  = (db1, mkResponse 500 (JErr ValidationError)).
Proof.
  apply (C6_create_rejects_invalid env1 bob
           (HootBody.mk (Some "Hi") (Some "World") (Some "Weather") None) db1).
  left. intros c [= <-]. vm_compute. intros H. apply list_elem_of_In in H.
  vm_compute in H. intuition discriminate.
Defined.

(** ** Sequencing and saving *)

Lemma bind_run {A B} (m : M A) (f : A → M B) db db' a :
  m db = (db', Ok a) → (m ≫= f) db = f a db'.
Proof. intros H. unfold mbind, M_bind. by rewrite H. Qed.

Lemma bind_throw {A B} (m : M A) (f : A → M B) db db' e :
  m db = (db', Throw e) → (m ≫= f) db = (db', Throw e).
Proof. intros H. unfold mbind, M_bind. by rewrite H. Qed.

Lemma save_valid env h db :
  validateHoot h = true →
  Hoot_save env h db =
    (mkDb (replaceOne (Hoot._id h) (touch env h) (hoots db)) (users db),
     Ok (touch env h)).
Proof. intros Hv. unfold Hoot_save. rewrite Hv. reflexivity. Qed.

Lemma save_invalid env h db :
  validateHoot h = false → Hoot_save env h db = (db, Throw ValidationError).
Proof. intros Hv. unfold Hoot_save. rewrite Hv. reflexivity. Qed.

Lemma validateHoot_setComments h cs :
  validateHoot h = true → forallb validateComment cs = true →
  validateHoot (setComments h cs) = true.
Proof.
  unfold validateHoot. cbn. intros H Hcs.
  apply andb_true_iff in H as [H _]. by rewrite H, Hcs.
Qed.

Lemma validateHoot_comments h :
  validateHoot h = true → forallb validateComment (Hoot.comments h) = true.
Proof. unfold validateHoot. intros H. by apply andb_true_iff in H as [_ H]. Qed.

Lemma stored_after_save db hootId hoot env h' :
  stored db hootId hoot → Hoot._id h' = Hoot._id hoot →
  stored (mkDb (replaceOne (Hoot._id h') (touch env h') (hoots db)) (users db))
    hootId (touch env h').
Proof.
  intros (o & Hc & Hf) Hid. exists o. split; [done|]. cbn [hoots].
  pose proof (find_hasId _ _ _ Hf) as Ho. rewrite Hid, Ho.
  apply (find_replaceOne _ _ _ hoot); [done|]. cbn. congruence.
Qed.

(** ** The comment array *)

Lemma comments_id_absent cs id :
  absentId Comment._id id cs → comments_id cs id = None.
Proof.
  intros Habs. unfold comments_id.
  destruct (castObjectId (IdStr id)) as [o|] eqn:Hc; [|done].
  apply find_absent. intros c Hc'. apply bool_decide_eq_false_2.
  intros Heq. apply (Habs c Hc'). by rewrite Heq.
Qed.

Lemma comments_id_middle before c after id :
  castObjectId (IdStr id) = Some (Comment._id c) →
  (∀ c', c' ∈ before → Comment._id c' ≠ Comment._id c) →
  comments_id (before ++ c :: after) id = Some c.
Proof.
  intros Hc Hb. unfold comments_id. rewrite Hc.
  induction before as [|b before IH]; cbn [app List.find].
  - by rewrite bool_decide_eq_true_2.
  - rewrite bool_decide_eq_false_2 by (apply Hb; constructor).
    apply IH. intros c' Hc'. apply Hb. by constructor.
Qed.

Lemma filter_other_ids o (l : list Comment.t) :
  (∀ c', c' ∈ l → Comment._id c' ≠ o) →
  List.filter (λ c, negb (bool_decide (Comment._id c = o))) l = l.
Proof.
  induction l as [|x l IH]; intros H; [done|]. cbn [List.filter].
  rewrite bool_decide_eq_false_2 by (apply H; constructor). cbn [negb].
  f_equal. apply IH. intros c' Hc'. apply H. by constructor.
Qed.

Lemma comments_remove_middle before c after id :
  castObjectId (IdStr id) = Some (Comment._id c) →
  (∀ c', c' ∈ before ++ after → Comment._id c' ≠ Comment._id c) →
  comments_remove (before ++ c :: after) id = before ++ after.
Proof.
  intros Hc Hother. unfold comments_remove. rewrite Hc.
  rewrite List.filter_app. cbn [List.filter].
  rewrite bool_decide_eq_true_2 by done. cbn [negb].
  rewrite !filter_other_ids; [done| |].
  - intros c' Hc'. apply Hother. apply elem_of_app. by right.
  - intros c' Hc'. apply Hother. apply elem_of_app. by left.
Qed.

(** ** The comment routes: the author check *)

Lemma updateComment_try_checked env user hootId commentId body db hoot c a :
  stored db hootId hoot →
  comments_id (Hoot.comments hoot) commentId = Some c →
  Comment.author c = Some a →
  updateComment_try env user hootId commentId body db =
    if strictNeq (toString a) (User._id user)
    then (db, Ok (mkResponse 403
                    (JMessage "You are not authorized to edit this comment")))
    else
      (Hoot_save env
         (setComments hoot
            (setCommentText env (Comment._id c) (CommentBody.text body)
               (Hoot.comments hoot)));;
       mret (mkResponse 200 (JMessage "Comment updated successfully"))) db.
Proof.
  intros Hs Hc Ha. unfold updateComment_try.
  rewrite (bind_run _ _ _ _ _ (findById_stored _ _ _ Hs)).
  unfold_M. cbn. rewrite Hc. cbn. rewrite Ha. cbn.
  by destruct (strictNeq _ _).
Qed.

Lemma deleteComment_try_checked env user hootId commentId db hoot c a :
  stored db hootId hoot →
  comments_id (Hoot.comments hoot) commentId = Some c →
  Comment.author c = Some a →
  deleteComment_try env user hootId commentId db =
    if strictNeq (toString a) (User._id user)
    then (db, Ok (mkResponse 403
                    (JMessage "You are not authorized to delete this comment")))
    else
      (Hoot_save env
         (setComments hoot (comments_remove (Hoot.comments hoot) commentId));;
       mret (mkResponse 200 (JMessage "Comment deleted successfully"))) db.
Proof.
  intros Hs Hc Ha. unfold deleteComment_try.
  rewrite (bind_run _ _ _ _ _ (findById_stored _ _ _ Hs)).
  unfold_M. cbn. rewrite Hc. cbn. rewrite Ha. cbn.
  by destruct (strictNeq _ _).
Qed.

(** The string comparison refuses every caller who is not the author. *)
Lemma strictNeq_nonauthor a caller :
  wfOid a → ¬ denotes caller a → strictNeq (toString a) caller = true.
Proof.
  intros Hwf Hne. destruct caller as [s|o]; [|reflexivity].
  unfold strictNeq. apply bool_decide_eq_true_2. intros <-.
  apply Hne. unfold denotes, castObjectId, toString.
  by apply fromHexString_toHexString.
Qed.

(** It also refuses the author whose id arrives as a structured id. *)
Lemma strictNeq_structured a o : strictNeq (toString a) (IdObj o) = true.
Proof. reflexivity. Qed.

Lemma strictNeq_string_form a : strictNeq (toString a) (IdStr (toString a)) = false.
Proof. unfold strictNeq. by apply bool_decide_eq_false_2; intros []. Qed.

(** The sound half of the comment check: a caller who is not the
    author is refused by both comment routes, with nothing written. *)
Lemma comment_routes_refuse_nonauthor env user hootId commentId body db hoot c a :
  stored db hootId hoot →
  comments_id (Hoot.comments hoot) commentId = Some c →
  Comment.author c = Some a → wfOid a →
  ¬ denotes (User._id user) a →
  fst (updateComment env user hootId commentId body db) = db ∧
  status (snd (updateComment env user hootId commentId body db)) = 403 ∧
  fst (deleteComment env user hootId commentId db) = db ∧
  status (snd (deleteComment env user hootId commentId db)) = 403.
Proof.
  intros Hs Hc Ha Hwf Hne.
  pose proof (strictNeq_nonauthor a _ Hwf Hne) as Hn.
  unfold updateComment, deleteComment, tryCatch.
  rewrite (updateComment_try_checked _ _ _ _ _ _ hoot c a) by done.
  rewrite (deleteComment_try_checked _ _ _ _ _ hoot c a) by done.
  by rewrite Hn.
Qed.

(** The check refuses every caller whose id is a structured id, the
    comment's author included. *)
Lemma comment_routes_refuse_structured_caller
    env user hootId commentId body db hoot c a o :
  stored db hootId hoot →
  comments_id (Hoot.comments hoot) commentId = Some c →
  Comment.author c = Some a →
  User._id user = IdObj o →
  updateComment env user hootId commentId body db =
    (db, mkResponse 403
           (JMessage "You are not authorized to edit this comment")) ∧
  deleteComment env user hootId commentId db =
    (db, mkResponse 403
           (JMessage "You are not authorized to delete this comment")).
Proof.
  intros Hs Hc Ha Hu.
  unfold updateComment, deleteComment, tryCatch.
  rewrite (updateComment_try_checked _ _ _ _ _ _ hoot c a) by done.
  rewrite (deleteComment_try_checked _ _ _ _ _ hoot c a) by done.
  by rewrite Hu, strictNeq_structured.
Qed.

(** C1, at the input where it fails.  Comment [c2] of the sample hoot
    was written by user A.  When user A calls with [req.user._id] held
    as a structured id, the id stands for the comment's author, yet
    [PUT] and [DELETE] on the comment both answer 403 and write
    nothing; the same user with the id in its string form is let
    through. *)
Theorem C1_structured_author_is_refused :
  stored db1 (toString oidH) hoot1 ∧
  comments_id (Hoot.comments hoot1) (toString oidC2) = Some c2 ∧
  Comment.author c2 = Some oidA ∧
  denotes (User._id aliceObj) oidA ∧
  updateComment env1 aliceObj (toString oidH) (toString oidC2)
    (CommentBody.mk (Some "edited") None) db1 =
    (db1, mkResponse 403
            (JMessage "You are not authorized to edit this comment")) ∧
  deleteComment env1 aliceObj (toString oidH) (toString oidC2) db1 =
    (db1, mkResponse 403
            (JMessage "You are not authorized to delete this comment")) ∧
  status (snd (updateComment env1 alice (toString oidH) (toString oidC2)
                 (CommentBody.mk (Some "edited") None) db1)) = 200 ∧
  status (snd (deleteComment env1 alice (toString oidH) (toString oidC2) db1)) = 200.
Proof.
  split; [exists oidH; split; reflexivity|].
  repeat split; reflexivity.
Qed.

(** ** Deleting a comment *)

(** C5, as the source has it. For every stored hoot and every comment
    id that selects none of its comments, [DELETE] on the comment does
    throw: reading the author of the missing comment raises a type
    error inside the [try] block.  The catch-all reports it with status
    500, so nothing escapes the handler, and the database, the hoot's
    comment list included, is unchanged. *)
Theorem C5_delete_absent_comment env user hootId commentId db hoot :
  stored db hootId hoot →
  absentId Comment._id commentId (Hoot.comments hoot) →
  deleteComment_try env user hootId commentId db = (db, Throw TypeError) ∧
  deleteComment env user hootId commentId db =
    (db, mkResponse 500 (JErr TypeError)).
Proof.
  intros Hs Habs.
  assert (Ht : deleteComment_try env user hootId commentId db
               = (db, Throw TypeError)).
  { unfold deleteComment_try.
    rewrite (bind_run _ _ _ _ _ (findById_stored _ _ _ Hs)).
    unfold_M. cbn. by rewrite (comments_id_absent _ _ Habs). }
  split; [done|]. unfold deleteComment, tryCatch. by rewrite Ht.
Qed.

Lemma C5_delete_absent_comment_witness :
  deleteComment env1 alice (toString oidH) (toString oidA) db1 =
    (db1, mkResponse 500 (JErr TypeError)).
Proof.
  assert (Hs : stored db1 (toString oidH) hoot1).
  { exists oidH. split; reflexivity. }
  apply (C5_delete_absent_comment env1 alice (toString oidH) (toString oidA)
           db1 hoot1 Hs).
  intros x Hx. apply list_elem_of_In in Hx.
  destruct Hx as [<-|[<-|[<-|[]]]]; vm_compute; discriminate.
Defined.

(** C5 as claimed does not hold: the id of user A is the id of no
    comment of the sample hoot, and the delete route throws on it. *)
Lemma C5_counterexample :
  stored db1 (toString oidH) hoot1 ∧
  absentId Comment._id (toString oidA) (Hoot.comments hoot1) ∧
  deleteComment_try env1 alice (toString oidH) (toString oidA) db1 =
    (db1, Throw TypeError) ∧
  status (snd (deleteComment env1 alice (toString oidH) (toString oidA) db1)) = 500.
Proof.
  split; [exists oidH; split; reflexivity|].
  split; [|split; reflexivity].
  intros x Hx. apply list_elem_of_In in Hx.
  destruct Hx as [<-|[<-|[<-|[]]]]; vm_compute; discriminate.
Qed.

(** C7, as the source has it.  Take a stored hoot that passes
    validation, with comment list [before ++ c :: after] in which only
    [c] has the id the request names, and a caller whose id is the
    string form of [c]'s author.  [DELETE] on the comment answers 200
    and the hoot is stored with the comment list [before ++ after]:
    exactly [c] is gone and the others keep their order.  With
    [before = [c1]] and [after = [c3]] this is the list [c1; c2; c3]
    becoming [c1; c3]. *)
Theorem C7_delete_removes_exactly_one
    env user hootId commentId db hoot before c after a :
  stored db hootId hoot →
  validateHoot hoot = true →
  Hoot.comments hoot = before ++ c :: after →
  castObjectId (IdStr commentId) = Some (Comment._id c) →
  (∀ c', c' ∈ before ++ after → Comment._id c' ≠ Comment._id c) →
  Comment.author c = Some a →
  User._id user = IdStr (toString a) →
  ∃ db' saved,
    deleteComment env user hootId commentId db =
      (db', mkResponse 200 (JMessage "Comment deleted successfully")) ∧
    stored db' hootId saved ∧
    Hoot.comments saved = before ++ after.
Proof.
  intros Hs Hv Hcs Hc Hother Ha Hu.
  assert (Hfound : comments_id (Hoot.comments hoot) commentId = Some c).
  { rewrite Hcs. apply comments_id_middle; [done|].
    intros c' Hc'. apply Hother. apply elem_of_app. by left. }
  assert (Hrm : comments_remove (Hoot.comments hoot) commentId = before ++ after).
  { rewrite Hcs. by apply comments_remove_middle. }
  assert (Hv' : validateHoot (setComments hoot (before ++ after)) = true).
  { apply validateHoot_setComments; [done|].
    apply validateHoot_comments in Hv. rewrite Hcs in Hv.
    rewrite forallb_app in Hv. cbn [forallb] in Hv.
    rewrite forallb_app.
    apply andb_true_iff in Hv as [H1 H2].
    apply andb_true_iff in H2 as [_ H2]. by rewrite H1, H2. }
  eexists _, (touch env (setComments hoot (before ++ after))).
  split; [|split].
  - unfold deleteComment, tryCatch.
    rewrite (deleteComment_try_checked _ _ _ _ _ hoot c a) by done.
    rewrite Hu, strictNeq_string_form, Hrm.
    rewrite (bind_run _ _ _ _ _ (save_valid env _ db Hv')).
    reflexivity.
  - by apply (stored_after_save db hootId hoot).
  - reflexivity.
Qed.

Lemma C7_delete_removes_exactly_one_witness :
  ∃ db' saved,
    deleteComment env1 alice (toString oidH) (toString oidC2) db1 =
      (db', mkResponse 200 (JMessage "Comment deleted successfully")) ∧
    stored db' (toString oidH) saved ∧
    Hoot.comments saved = [c1; c3].
Proof.
  assert (Hs : stored db1 (toString oidH) hoot1).
  { exists oidH. split; reflexivity. }
  apply (C7_delete_removes_exactly_one env1 alice (toString oidH)
           (toString oidC2) db1 hoot1 [c1] c2 [c3] oidA Hs);
    try reflexivity.
  intros c' Hc'. apply list_elem_of_In in Hc'.
  destruct Hc' as [<-|[<-|[]]]; vm_compute; discriminate.
Defined.

(** C7 as claimed does not hold for every post.  First, the author of
    the sample hoot stores the category "Weather" with [PUT /:hootId]
    (answered 200, comments untouched); the author of [c2] then sends
    the authorized [DELETE] of [c2], the save fails validation, the
    route answers 500 and the list is still [c1; c2; c3].  Second, on a
    hoot whose third comment carries the id of [c2], the authorized
    [DELETE] of [c2] pulls both and leaves [c1] alone. *)
Lemma C7_counterexample :
  let weather := HootBody.mk None None (Some "Weather") None in
  let dbW := fst (updateHoot env1 alice (toString oidH) weather db1) in
  (status (snd (updateHoot env1 alice (toString oidH) weather db1)) = 200 ∧
   ∃ hootW,
     stored dbW (toString oidH) hootW ∧
     Hoot.comments hootW = [c1; c2; c3] ∧
     comments_id (Hoot.comments hootW) (toString oidC2) = Some c2 ∧
     strictNeq (toString oidA) (User._id alice) = false ∧
     deleteComment env1 alice (toString oidH) (toString oidC2) dbW =
       (dbW, mkResponse 500 (JErr ValidationError)) ∧
     Hoot.comments hootW ≠ [c1; c3]) ∧
  (stored dbTwin (toString oidH) hootTwin ∧
   Hoot.comments hootTwin = [c1; c2; c2twin] ∧
   comments_id (Hoot.comments hootTwin) (toString oidC2) = Some c2 ∧
   strictNeq (toString oidA) (User._id alice) = false ∧
   status (snd (deleteComment env1 alice (toString oidH) (toString oidC2) dbTwin))
     = 200 ∧
   ∃ saved,
     stored (fst (deleteComment env1 alice (toString oidH) (toString oidC2) dbTwin))
       (toString oidH) saved ∧
     Hoot.comments saved = [c1] ∧
     Hoot.comments saved ≠ [c1; c2twin]).
Proof.
  cbv zeta. split.
  - split; [reflexivity|]. eexists. split.
    { exists oidH. split; reflexivity. }
    split; [reflexivity|]. split; [reflexivity|]. split; [reflexivity|].
    split; [reflexivity|]. discriminate.
  - split; [exists oidH; split; reflexivity|].
    split; [reflexivity|]. split; [reflexivity|]. split; [reflexivity|].
    split; [reflexivity|]. eexists. split.
    { exists oidH. split; reflexivity. }
    split; [reflexivity|]. discriminate.
Qed.

(** ** Adding a comment *)

Lemma createComment_try_outcome env user hootId body db :
  (∃ e, createComment_try env user hootId body db = (db, Throw e)) ∨
  (∃ hoot a,
     stored db hootId hoot ∧ denotes (User._id user) a ∧
     let c := Comment.mk (newId env) (CommentBody.text body) (Some a)
                (now env) (now env) in
     let saved := touch env (setComments hoot (Hoot.comments hoot ++ [c])) in
     createComment_try env user hootId body db =
       (mkDb (replaceOne (Hoot._id hoot) saved (hoots db)) (users db),
        Ok (mkResponse 201 (JComment (mkCommentView c (AuthorUser user)))))).
Proof.
  unfold createComment_try.
  destruct (castObjectId (IdStr hootId)) as [o|] eqn:Hc.
  2:{ left. eexists. apply bind_throw. by apply findById_nocast. }
  rewrite (bind_run _ _ _ _ _ (findById_cast _ _ db Hc)).
  destruct (List.find (hasId o) (hoots db)) as [hoot|] eqn:Hf.
  2:{ left. by eexists. }
  rewrite (bind_run _ _ db db hoot) by done.
  unfold castComment. cbn [CommentBody.author CommentBody.text castAuthor].
  destruct (castObjectId (User._id user)) as [a|] eqn:Hu.
  2:{ left. by eexists. }
  cbn [fmap option_fmap option_map mbind option_bind].
  match goal with |- context [Hoot_save env ?h] =>
    destruct (validateHoot h) eqn:Hv end.
  - right. exists hoot, a. split; [by exists o|]. split; [done|].
    cbn zeta.
    rewrite (bind_run _ _ _ _ _ (save_valid env _ db Hv)).
    cbn [touch setComments Hoot.comments Hoot._id].
    rewrite last_snoc. reflexivity.
  - left. eexists. apply bind_throw. by apply save_invalid.
Qed.

(** C9. Whenever the [try] block of [POST /:hootId/comments] completes
    without an error, the route answers 201, the request had found a
    stored hoot, that hoot is stored again with the new comment
    appended as the last element of its comment list, and the response
    body is that comment with its author replaced by [req.user]; the
    comment carries the text of the body, and its stored author is the
    id the caller's id stands for. *)
Theorem C9_createComment_appends env user hootId body db db' r :
  createComment_try env user hootId body db = (db', Ok r) →
  ∃ hoot saved newComment a,
    createComment env user hootId body db = (db', r) ∧
    status r = 201 ∧
    stored db hootId hoot ∧ stored db' hootId saved ∧
    Hoot.comments saved = Hoot.comments hoot ++ [newComment] ∧
    last (Hoot.comments saved) = Some newComment ∧
    r = mkResponse 201 (JComment (mkCommentView newComment (AuthorUser user))) ∧
    Comment.text newComment = CommentBody.text body ∧
    Comment.author newComment = Some a ∧
    denotes (User._id user) a.
Proof.
  intros Hrun.
  assert (Hh : createComment env user hootId body db = (db', r)).
  { unfold createComment, tryCatch. by rewrite Hrun. }
  destruct (createComment_try_outcome env user hootId body db)
    as [[e He]|(hoot & a & Hs & Hd & Hok)].
  - rewrite He in Hrun. discriminate.
  - cbn zeta in Hok. rewrite Hok in Hrun. injection Hrun as <- <-.
    set (c := Comment.mk (newId env) (CommentBody.text body) (Some a)
                (now env) (now env)).
    exists hoot, (touch env (setComments hoot (Hoot.comments hoot ++ [c]))), c, a.
    split; [done|]. split; [done|]. split; [done|]. split.
    { apply (stored_after_save db hootId hoot env
               (setComments hoot (Hoot.comments hoot ++ [c])));
        [done|reflexivity]. }
    cbn [touch setComments Hoot.comments]. rewrite last_snoc.
    repeat split; done.
Qed.

Lemma C9_createComment_appends_witness :
  ∃ hoot saved newComment a,
    createComment env1 bob (toString oidH)
      (CommentBody.mk (Some "nice post") None) db1
    = (mkDb [touch env1 (setComments hoot1
                           [c1; c2; c3;
                            Comment.mk oidC4 (Some "nice post") (Some oidB) 20 20])]
         (users db1),
       mkResponse 201
         (JComment (mkCommentView
                      (Comment.mk oidC4 (Some "nice post") (Some oidB) 20 20)
                      (AuthorUser bob)))) ∧
    status (mkResponse 201
              (JComment (mkCommentView
                           (Comment.mk oidC4 (Some "nice post") (Some oidB) 20 20)
                           (AuthorUser bob)))) = 201 ∧
    stored db1 (toString oidH) hoot ∧
    stored (mkDb [touch env1 (setComments hoot1
                                [c1; c2; c3;
                                 Comment.mk oidC4 (Some "nice post") (Some oidB) 20 20])]
              (users db1))
      (toString oidH) saved ∧
    Hoot.comments saved = Hoot.comments hoot ++ [newComment] ∧
    last (Hoot.comments saved) = Some newComment ∧
    mkResponse 201
      (JComment (mkCommentView
                   (Comment.mk oidC4 (Some "nice post") (Some oidB) 20 20)
                   (AuthorUser bob)))
      = mkResponse 201 (JComment (mkCommentView newComment (AuthorUser bob))) ∧
    Comment.text newComment = Some "nice post" ∧
    Comment.author newComment = Some a ∧
    denotes (User._id bob) a.
Proof.
  apply (C9_createComment_appends env1 bob (toString oidH)
           (CommentBody.mk (Some "nice post") None) db1).
  reflexivity.
Defined.

(** ** What the comment routes may write *)

Lemma writesAtMost_refl hootId db : writesAtMost hootId db db.
Proof. by left. Qed.

Lemma writesAtMost_save env hootId db hoot h' :
  stored db hootId hoot → Hoot._id h' = Hoot._id hoot →
  Hoot.author h' = Hoot.author hoot →
  writesAtMost hootId db (fst (Hoot_save env h' db)).
Proof.
  intros Hs Hid Hau. unfold Hoot_save. destruct (validateHoot h').
  - right. exists hoot, (touch env h'). cbn. by rewrite Hid.
  - by left.
Qed.

Lemma fst_then_ret {A B} (m : M A) (r : B) db :
  fst ((m ;; mret r) db) = fst (m db).
Proof. unfold mbind, M_bind. by destruct (m db) as [db' []]. Qed.

Lemma fst_tryCatch m db : fst (tryCatch m db) = fst (m db).
Proof. unfold tryCatch. by destruct (m db) as [db' []]. Qed.

Lemma writesAtMost_lookup hootId db db' i other :
  writesAtMost hootId db db' →
  hoots db !! i = Some other →
  castObjectId (IdStr hootId) ≠ Some (Hoot._id other) →
  hoots db' !! i = Some other.
Proof.
  intros [->|(hoot & h' & Hs & _ & _ & ->)] Hi Hne; [done|].
  cbn [hoots]. apply replaceOne_lookup_other; [done|].
  intros Heq. apply Hne. rewrite Heq. by apply (stored_id db).
Qed.

Lemma createComment_writesAtMost env user hootId body db :
  writesAtMost hootId db (fst (createComment env user hootId body db)).
Proof.
  unfold createComment. rewrite fst_tryCatch.
  destruct (createComment_try_outcome env user hootId body db)
    as [[e He]|(hoot & a & Hs & _ & Hok)].
  - rewrite He. by left.
  - cbn zeta in Hok. rewrite Hok. right.
    exists hoot. eexists. split; [done|].
    split; [|split; [|reflexivity]]; reflexivity.
Qed.

Lemma updateComment_writesAtMost env user hootId commentId body db :
  writesAtMost hootId db
    (fst (updateComment env user hootId commentId body db)).
Proof.
  unfold updateComment. rewrite fst_tryCatch.
  destruct (castObjectId (IdStr hootId)) as [o|] eqn:Hc.
  2:{ unfold updateComment_try.
      rewrite (bind_throw _ _ _ _ _ (findById_nocast _ db Hc)). by left. }
  destruct (List.find (hasId o) (hoots db)) as [hoot|] eqn:Hf.
  2:{ unfold updateComment_try.
      rewrite (bind_run _ _ _ _ _ (findById_cast _ _ db Hc)), Hf. by left. }
  assert (Hs : stored db hootId hoot) by (by exists o).
  destruct (comments_id (Hoot.comments hoot) commentId) as [c|] eqn:Hi.
  2:{ unfold updateComment_try.
      rewrite (bind_run _ _ _ _ _ (findById_stored _ _ _ Hs)).
      unfold_M. cbn. rewrite Hi. by left. }
  destruct (Comment.author c) as [a|] eqn:Ha.
  2:{ unfold updateComment_try.
      rewrite (bind_run _ _ _ _ _ (findById_stored _ _ _ Hs)).
      unfold_M. cbn. rewrite Hi. cbn. rewrite Ha. by left. }
  rewrite (updateComment_try_checked _ _ _ _ _ _ hoot c a) by done.
  destruct (strictNeq _ _); [by left|].
  rewrite fst_then_ret. by apply (writesAtMost_save _ _ _ hoot).
Qed.

Lemma deleteComment_writesAtMost env user hootId commentId db :
  writesAtMost hootId db (fst (deleteComment env user hootId commentId db)).
Proof.
  unfold deleteComment. rewrite fst_tryCatch.
  destruct (castObjectId (IdStr hootId)) as [o|] eqn:Hc.
  2:{ unfold deleteComment_try.
      rewrite (bind_throw _ _ _ _ _ (findById_nocast _ db Hc)). by left. }
  destruct (List.find (hasId o) (hoots db)) as [hoot|] eqn:Hf.
  2:{ unfold deleteComment_try.
      rewrite (bind_run _ _ _ _ _ (findById_cast _ _ db Hc)), Hf. by left. }
  assert (Hs : stored db hootId hoot) by (by exists o).
  destruct (comments_id (Hoot.comments hoot) commentId) as [c|] eqn:Hi.
  2:{ unfold deleteComment_try.
      rewrite (bind_run _ _ _ _ _ (findById_stored _ _ _ Hs)).
      unfold_M. cbn. rewrite Hi. by left. }
  destruct (Comment.author c) as [a|] eqn:Ha.
  2:{ unfold deleteComment_try.
      rewrite (bind_run _ _ _ _ _ (findById_stored _ _ _ Hs)).
      unfold_M. cbn. rewrite Hi. cbn. rewrite Ha. by left. }
  rewrite (deleteComment_try_checked _ _ _ _ _ hoot c a) by done.
  destruct (strictNeq _ _); [by left|].
  rewrite fst_then_ret. by apply (writesAtMost_save _ _ _ hoot).
Qed.

(** The comment routes never touch the author of the hoot they write. *)
Lemma writesAtMost_keeps_author hootId db db' hoot :
  writesAtMost hootId db db' → stored db hootId hoot →
  ∃ h', stored db' hootId h' ∧ Hoot.author h' = Hoot.author hoot.
Proof.
  intros [->|(hoot0 & h' & Hs0 & Hid & Hau & ->)] Hs; [by exists hoot|].
  assert (hoot0 = hoot) as ->.
  { destruct Hs0 as (o0 & Hc0 & Hf0), Hs as (o & Hc & Hf). congruence. }
  exists h'. split; [|done].
  destruct Hs as (o & Hc & Hf). exists o. split; [done|]. cbn [hoots].
  rewrite (find_hasId _ _ _ Hf).
  apply (find_replaceOne _ _ _ hoot); [done|].
  rewrite Hid. by apply (find_hasId _ (hoots db)).
Qed.

Lemma comment_routes_keep_author env user hootId commentId body db hoot :
  stored db hootId hoot →
  (∃ h', stored (fst (createComment env user hootId body db)) hootId h' ∧
         Hoot.author h' = Hoot.author hoot) ∧
  (∃ h', stored (fst (updateComment env user hootId commentId body db)) hootId h' ∧
         Hoot.author h' = Hoot.author hoot) ∧
  (∃ h', stored (fst (deleteComment env user hootId commentId db)) hootId h' ∧
         Hoot.author h' = Hoot.author hoot).
Proof.
  intros Hs. repeat split.
  - eapply writesAtMost_keeps_author; [apply createComment_writesAtMost|done].
  - eapply writesAtMost_keeps_author; [apply updateComment_writesAtMost|done].
  - eapply writesAtMost_keeps_author; [apply deleteComment_writesAtMost|done].
Qed.

(** C10. Each comment route leaves every hoot other than the one its
    [hootId] selects exactly as it was, comment list included, and at
    the same place in the collection; no hoot is added or removed and
    the user collection is untouched. *)
Theorem C10_comment_routes_frame env user hootId commentId body db i other :
  hoots db !! i = Some other →
  castObjectId (IdStr hootId) ≠ Some (Hoot._id other) →
  let dbC := fst (createComment env user hootId body db) in
  let dbU := fst (updateComment env user hootId commentId body db) in
  let dbD := fst (deleteComment env user hootId commentId db) in
  hoots dbC !! i = Some other ∧
  hoots dbU !! i = Some other ∧
  hoots dbD !! i = Some other ∧
  length (hoots dbC) = length (hoots db) ∧
  length (hoots dbU) = length (hoots db) ∧
  length (hoots dbD) = length (hoots db) ∧
  users dbC = users db ∧ users dbU = users db ∧ users dbD = users db.
Proof.
  intros Hi Hne dbC dbU dbD.
  pose proof (createComment_writesAtMost env user hootId body db) as H1.
  pose proof (updateComment_writesAtMost env user hootId commentId body db) as H2.
  pose proof (deleteComment_writesAtMost env user hootId commentId db) as H3.
  fold dbC in H1. fold dbU in H2. fold dbD in H3.
  assert (Hlen : ∀ db', writesAtMost hootId db db' →
            length (hoots db') = length (hoots db) ∧ users db' = users db).
  { intros db' [->|(hoot & h' & _ & _ & _ & ->)]; [done|].
    cbn. by rewrite length_replaceOne. }
  destruct (Hlen _ H1), (Hlen _ H2), (Hlen _ H3).
  repeat split; try done; by eapply writesAtMost_lookup.
Qed.

Lemma C10_comment_routes_frame_witness :
  hoots (fst (createComment env1 bob (toString oidH)
                (CommentBody.mk (Some "nice post") None) db2)) !! 1%nat
    = Some hoot2 ∧
  hoots (fst (updateComment env1 alice (toString oidH) (toString oidC2)
                (CommentBody.mk (Some "nice post") None) db2)) !! 1%nat
    = Some hoot2 ∧
  hoots (fst (deleteComment env1 alice (toString oidH) (toString oidC2) db2))
    !! 1%nat = Some hoot2.
Proof.
  assert (Hne : castObjectId (IdStr (toString oidH)) ≠ Some (Hoot._id hoot2)).
  { vm_compute. discriminate. }
  destruct (C10_comment_routes_frame env1 alice (toString oidH) (toString oidC2)
              (CommentBody.mk (Some "nice post") None) db2 1%nat hoot2
              eq_refl Hne) as (_ & Hu & Hd & _).
  destruct (C10_comment_routes_frame env1 bob (toString oidH) (toString oidC2)
              (CommentBody.mk (Some "nice post") None) db2 1%nat hoot2
              eq_refl Hne) as (Hc & _).
  split; [exact Hc|]. split; [exact Hu|exact Hd].
Defined.

(** ** Updating a hoot *)

(** C2, at the input where it fails.  The sample hoot was created by
    user A.  User A sends [PUT /:hootId] with a body whose [author] key
    holds the id of user B: the route answers 200 and the stored hoot
    now names user B as its author, so the author has changed after
    creation and was taken from the client.  User A is then refused on
    the same hoot and user B is let through. *)
Theorem C2_update_accepts_client_author :
  let body := HootBody.mk None None None (Some (IdStr (toString oidB))) in
  let after := updateHoot env1 alice (toString oidH) body db1 in
  stored db1 (toString oidH) hoot1 ∧
  Hoot.author hoot1 = Some oidA ∧
  denotes (User._id alice) oidA ∧
  status (snd after) = 200 ∧
  (∃ hoot', stored (fst after) (toString oidH) hoot' ∧
            Hoot.author hoot' = Some oidB) ∧
  oidB ≠ oidA ∧
  status (snd (updateHoot env1 alice (toString oidH) body (fst after))) = 403 ∧
  status (snd (deleteHoot bob (toString oidH) (fst after))) = 200.
Proof.
  cbv zeta.
  split; [exists oidH; split; reflexivity|].
  do 3 (split; [reflexivity|]).
  split.
  { eexists. split; [exists oidH; split; reflexivity|reflexivity]. }
  split; [discriminate|]. split; reflexivity.
Qed.

(** An update whose body has no [author] key leaves the author alone,
    whatever else it writes. *)
Lemma updateHoot_keeps_author_without_key env user hootId body db hoot :
  stored db hootId hoot →
  HootBody.author body = None →
  ∃ h', stored (fst (updateHoot env user hootId body db)) hootId h' ∧
        Hoot.author h' = Hoot.author hoot.
Proof.
  intros Hs Hb. unfold updateHoot. rewrite fst_tryCatch.
  unfold updateHoot_try.
  rewrite (bind_run _ _ _ _ _ (findById_stored _ _ _ Hs)).
  unfold deref at 1. rewrite (bind_run _ _ db db hoot) by done.
  destruct (Hoot.author hoot) as [a|] eqn:Ha; [|by exists hoot].
  unfold deref at 1. rewrite (bind_run _ _ db db a) by done.
  destruct (equals a (User._id user)); cbn [negb]; [|by exists hoot].
  destruct Hs as (o & Hc & Hf).
  assert (Hu : Hoot_findByIdAndUpdate env hootId body db =
               (mkDb (replaceOne o (applyUpdate env body None hoot) (hoots db))
                  (users db),
                Ok (Some (applyUpdate env body None hoot)))).
  { unfold Hoot_findByIdAndUpdate, castId. rewrite Hc, Hb.
    unfold_M. cbn. by rewrite Hf. }
  rewrite (bind_run _ _ _ _ _ Hu). cbn.
  exists (applyUpdate env body None hoot). split; [|by rewrite <- Ha].
  exists o. split; [done|]. cbn [hoots].
  apply (find_replaceOne _ _ _ hoot); [done|].
  cbn. by apply (find_hasId _ (hoots db)).
Qed.

(** ** Listing hoots *)



(** * Further properties of the routes *)

(** ** The ownership check of the hoot routes *)

Lemma hexValue_hexDigit c h :
  hexValue c = Some h → (h < 16)%N ∧ hexDigit h = lowerChar c.
Proof.
  destruct c as [[] [] [] [] [] [] [] []]; vm_compute;
    intros H; try discriminate; injection H as <-; split; reflexivity.
Qed.

Lemma byteToHex_of_N h l b :
  (h < 16)%N → (l < 16)%N → Byte.of_N (16 * h + l) = Some b →
  byteToHex b = String (hexDigit h) (String (hexDigit l) EmptyString).
Proof.
  intros Hh Hl Hb. apply Byte.to_of_N in Hb. unfold byteToHex.
  rewrite Hb. cbv zeta.
  rewrite <- (N.div_unique (16 * h + l) 16 h l) by done.
  rewrite <- (N.mod_unique (16 * h + l) 16 h l) by done.
  reflexivity.
Qed.

Lemma bytesToHex_bytesFromHex s l :
  bytesFromHex s = Some l → bytesToHex l = toLowerCase s.
Proof.
  assert (H : ∀ s,
    (∀ l, bytesFromHex s = Some l → bytesToHex l = toLowerCase s) ∧
    (∀ c l, bytesFromHex (String c s) = Some l →
            bytesToHex l = toLowerCase (String c s))).
  { clear. induction s as [|c' s [IH1 IH2]].
    - split; [by intros l [= <-]|]. intros c l H. discriminate.
    - split; [apply IH2|]. intros c l H.
      cbn [bytesFromHex] in H.
      destruct (hexValue c) as [h|] eqn:Hh; [|discriminate].
      destruct (hexValue c') as [lo|] eqn:Hlo; [|discriminate].
      destruct (bytesFromHex s) as [rest|] eqn:Hr; [|discriminate].
      destruct (Byte.of_N (16 * h + lo)) as [b|] eqn:Hb; [|discriminate].
      injection H as <-.
      apply hexValue_hexDigit in Hh as [Hh1 Hh2].
      apply hexValue_hexDigit in Hlo as [Hl1 Hl2].
      cbn [bytesToHex toLowerCase].
      rewrite (byteToHex_of_N h lo b) by done.
      rewrite Hh2, Hl2, (IH1 rest) by done. reflexivity. }
  apply H.
Qed.

(** Whatever casts to an id is accepted by [equals] on that id. *)
Lemma denotes_equals a v : denotes v a → equals a v = true.
Proof.
  unfold denotes, castObjectId, equals. destruct v as [s|o].
  - unfold fromHexString. case_decide; [|done].
    destruct (bytesFromHex s) as [l|] eqn:Hl; [|done].
    intros [= <-]. apply bool_decide_eq_true_2.
    unfold toHexString. cbn [buffer]. symmetry.
    by apply bytesToHex_bytesFromHex.
  - intros [= ->]. by apply bool_decide_eq_true_2.
Qed.

Lemma equals_iff_denotes a v : wfOid a → equals a v = true ↔ denotes v a.
Proof. intros Hwf. split; [by apply equals_denotes|apply denotes_equals]. Qed.

Lemma findByIdAndUpdate_stored env hootId body db hoot :
  stored db hootId hoot →
  Hoot_findByIdAndUpdate env hootId body db =
    match castAuthor (HootBody.author body) with
    | None => (db, Throw CastError)
    | Some b =>
        (mkDb (replaceOne (Hoot._id hoot) (applyUpdate env body b hoot) (hoots db))
           (users db),
         Ok (Some (applyUpdate env body b hoot)))
    end.
Proof.
  intros Hs. pose proof (stored_id _ _ _ Hs) as Hc.
  destruct Hs as (o & Hc' & Hf).
  assert (o = Hoot._id hoot) as -> by congruence.
  unfold Hoot_findByIdAndUpdate, castId. rewrite Hc.
  destruct (castAuthor (HootBody.author body)) as [b|]; [|reflexivity].
  unfold_M. cbn. rewrite Hf. reflexivity.
Qed.

Lemma findByIdAndDelete_stored hootId db hoot :
  stored db hootId hoot →
  Hoot_findByIdAndDelete hootId db =
    (mkDb (deleteOne (Hoot._id hoot) (hoots db)) (users db), Ok (Some hoot)).
Proof.
  intros Hs. pose proof (stored_id _ _ _ Hs) as Hc.
  destruct Hs as (o & Hc' & Hf).
  assert (o = Hoot._id hoot) as -> by congruence.
  unfold Hoot_findByIdAndDelete, castId. rewrite Hc.
  unfold_M. cbn. rewrite Hf. reflexivity.
Qed.

Lemma updateHoot_try_authorized env user hootId body db hoot a :
  stored db hootId hoot → Hoot.author hoot = Some a →
  equals a (User._id user) = true →
  updateHoot_try env user hootId body db =
    match castAuthor (HootBody.author body) with
    | None => (db, Throw CastError)
    | Some b =>
        (mkDb (replaceOne (Hoot._id hoot) (applyUpdate env body b hoot) (hoots db))
           (users db),
         Ok (mkResponse 200 (JHoot (withUser user (applyUpdate env body b hoot)))))
    end.
Proof.
  intros Hs Ha He. unfold updateHoot_try.
  rewrite (bind_run _ _ _ _ _ (findById_stored _ _ _ Hs)).
  rewrite (bind_run _ _ db db hoot) by done.
  rewrite Ha. rewrite (bind_run _ _ db db a) by done.
  rewrite He. cbn [negb].
  pose proof (findByIdAndUpdate_stored env hootId body db hoot Hs) as Hu.
  destruct (castAuthor (HootBody.author body)) as [b|].
  - by rewrite (bind_run _ _ _ _ _ Hu).
  - by rewrite (bind_throw _ _ _ _ _ Hu).
Qed.

Lemma deleteHoot_try_authorized user hootId db hoot a :
  stored db hootId hoot → Hoot.author hoot = Some a →
  equals a (User._id user) = true →
  deleteHoot_try user hootId db =
    (mkDb (deleteOne (Hoot._id hoot) (hoots db)) (users db),
     Ok (mkResponse 200 (JHoot (plainHoot hoot)))).
Proof.
  intros Hs Ha He. unfold deleteHoot_try.
  rewrite (bind_run _ _ _ _ _ (findById_stored _ _ _ Hs)).
  rewrite (bind_run _ _ db db hoot) by done.
  rewrite Ha. rewrite (bind_run _ _ db db a) by done.
  rewrite He. cbn [negb].
  by rewrite (bind_run _ _ _ _ _ (findByIdAndDelete_stored _ _ _ Hs)).
Qed.

(** What [PUT /:hootId] does, by cases. *)
Lemma updateHoot_cases env user hootId body db :
  updateHoot env user hootId body db =
    match castObjectId (IdStr hootId) with
    | None => (db, mkResponse 500 (JErr CastError))
    | Some o =>
        match List.find (hasId o) (hoots db) with
        | None => (db, mkResponse 500 (JErr TypeError))
        | Some hoot =>
            match Hoot.author hoot with
            | None => (db, mkResponse 500 (JErr TypeError))
            | Some a =>
                if equals a (User._id user)
                then
                  match castAuthor (HootBody.author body) with
                  | None => (db, mkResponse 500 (JErr CastError))
                  | Some b =>
                      (mkDb (replaceOne (Hoot._id hoot)
                               (applyUpdate env body b hoot) (hoots db))
                         (users db),
                       mkResponse 200
                         (JHoot (withUser user (applyUpdate env body b hoot))))
                  end
                else (db, forbiddenHoot)
            end
        end
    end.
Proof.
  unfold updateHoot, tryCatch.
  destruct (castObjectId (IdStr hootId)) as [o|] eqn:Hc.
  2:{ unfold updateHoot_try.
      by rewrite (bind_throw _ _ _ _ _ (findById_nocast _ db Hc)). }
  destruct (List.find (hasId o) (hoots db)) as [hoot|] eqn:Hf.
  2:{ unfold updateHoot_try.
      by rewrite (bind_run _ _ _ _ _ (findById_cast _ _ db Hc)), Hf. }
  assert (Hs : stored db hootId hoot) by (by exists o).
  destruct (Hoot.author hoot) as [a|] eqn:Ha.
  2:{ unfold updateHoot_try.
      rewrite (bind_run _ _ _ _ _ (findById_stored _ _ _ Hs)).
      unfold_M. cbn. by rewrite Ha. }
  destruct (equals a (User._id user)) eqn:He.
  - rewrite (updateHoot_try_authorized _ _ _ _ _ hoot a) by done.
    by destruct (castAuthor _).
  - by rewrite (updateHoot_try_forbidden _ _ _ _ _ hoot a).
Qed.

(** A 200 from [PUT /:hootId] tells what was found and written. *)
Lemma updateHoot_ok env user hootId body db db' r :
  updateHoot env user hootId body db = (db', r) → status r = 200 →
  ∃ hoot a b,
    stored db hootId hoot ∧ Hoot.author hoot = Some a ∧
    equals a (User._id user) = true ∧
    castAuthor (HootBody.author body) = Some b ∧
    db' = mkDb (replaceOne (Hoot._id hoot) (applyUpdate env body b hoot)
                  (hoots db)) (users db) ∧
    r = mkResponse 200 (JHoot (withUser user (applyUpdate env body b hoot))).
Proof.
  rewrite updateHoot_cases. intros Hrun Hst.
  destruct (castObjectId (IdStr hootId)) as [o|] eqn:Hc;
    [|by injection Hrun as <- <-].
  destruct (List.find (hasId o) (hoots db)) as [hoot|] eqn:Hf;
    [|by injection Hrun as <- <-].
  destruct (Hoot.author hoot) as [a|] eqn:Ha; [|by injection Hrun as <- <-].
  destruct (equals a (User._id user)) eqn:He; [|by injection Hrun as <- <-].
  destruct (castAuthor (HootBody.author body)) as [b|] eqn:Hb;
    [|by injection Hrun as <- <-].
  injection Hrun as <- <-. exists hoot, a, b.
  split; [by exists o|]. done.
Qed.

(** X1. On a stored hoot with a well-formed author id, [PUT /:hootId]
    and [DELETE /:hootId] answer 403 exactly for the callers whose id
    does not stand for the author: the author is never refused,
    whether the id arrives as a string (in either letter case) or as a
    structured id. *)
Theorem hoot_routes_refuse_exactly_nonauthors env user hootId body db hoot a :
  stored db hootId hoot → Hoot.author hoot = Some a → wfOid a →
  (status (snd (updateHoot env user hootId body db)) = 403
     ↔ ¬ denotes (User._id user) a) ∧
  (status (snd (deleteHoot user hootId db)) = 403
     ↔ ¬ denotes (User._id user) a).
Proof.
  intros Hs Ha Hwf. unfold updateHoot, deleteHoot, tryCatch.
  destruct (equals a (User._id user)) eqn:He.
  - pose proof (equals_denotes _ _ Hwf He) as Hd.
    rewrite (updateHoot_try_authorized _ _ _ _ _ hoot a) by done.
    rewrite (deleteHoot_try_authorized _ _ _ hoot a) by done.
    split; (split; [|done]).
    + by destruct (castAuthor _).
    + done.
  - assert (Hnd : ¬ denotes (User._id user) a).
    { intros Hd. apply denotes_equals in Hd. congruence. }
    rewrite (updateHoot_try_forbidden _ _ _ _ _ hoot a) by done.
    rewrite (deleteHoot_try_forbidden _ _ _ hoot a) by done.
    done.
Qed.

Lemma hoot_routes_refuse_exactly_nonauthors_witness :
  (status (snd (updateHoot env1 aliceObj (toString oidH)
                  (HootBody.mk (Some "Hello") None None None) db1)) = 403
     ↔ ¬ denotes (User._id aliceObj) oidA) ∧
  (status (snd (deleteHoot aliceObj (toString oidH) db1)) = 403
     ↔ ¬ denotes (User._id aliceObj) oidA).
Proof.
  apply (hoot_routes_refuse_exactly_nonauthors env1 aliceObj (toString oidH)
           (HootBody.mk (Some "Hello") None None None) db1 hoot1 oidA).
  - exists oidH. split; reflexivity.
  - reflexivity.
  - reflexivity.
Defined.

(** ** Updating and deleting a hoot as its author *)

Lemma stored_after_update env body b db hootId hoot :
  stored db hootId hoot →
  stored (mkDb (replaceOne (Hoot._id hoot) (applyUpdate env body b hoot)
                  (hoots db)) (users db))
    hootId (applyUpdate env body b hoot).
Proof.
  intros (o & Hc & Hf). exists o. split; [done|]. cbn [hoots].
  rewrite (find_hasId _ _ _ Hf).
  apply (find_replaceOne _ _ _ hoot); [done|].
  cbn. by apply (find_hasId _ (hoots db)).
Qed.



Lemma validateHoot_fields h :
  validateHoot h =
    (required (Hoot.title h) && required (Hoot.text h) &&
     required (Hoot.category h) && enum categories (Hoot.category h)) &&
    forallb validateComment (Hoot.comments h).
Proof. reflexivity. Qed.

Lemma validateHoot_setComments_false h cs :
  required (Hoot.title h) && required (Hoot.text h) &&
  required (Hoot.category h) && enum categories (Hoot.category h) = false →
  validateHoot (setComments h cs) = false.
Proof. intros H. rewrite validateHoot_fields. cbn. by rewrite H. Qed.

(** A hoot whose own paths fail validation cannot be commented on. *)
Lemma createComment_on_invalid env user hootId body db hoot :
  stored db hootId hoot →
  required (Hoot.title hoot) && required (Hoot.text hoot) &&
  required (Hoot.category hoot) && enum categories (Hoot.category hoot) = false →
  createComment env user hootId body db =
    (db, mkResponse 500 (JErr ValidationError)).
Proof.
  intros Hs Hbad. unfold createComment, tryCatch, createComment_try.
  rewrite (bind_run _ _ _ _ _ (findById_stored _ _ _ Hs)).
  rewrite (bind_run _ _ db db hoot) by done.
  destruct (castComment env _) as [c|]; [|reflexivity].
  rewrite (bind_throw _ _ db db ValidationError); [done|].
  apply save_invalid. by apply validateHoot_setComments_false.
Qed.

(** X3. [PUT /:hootId] runs no validator.  Whenever it answers 200 to
    a body that carries a category outside the six allowed values, an
    empty title or an empty text, that value is stored: the stored
    hoot fails validation, and in the resulting store every
    [POST /:hootId/comments] on it, by any caller and with any body,
    is answered 500 with a validation error and writes nothing. *)
Theorem updateHoot_skips_validation env user hootId body db db' r :
  updateHoot env user hootId body db = (db', r) →
  status r = 200 →
  (∃ c, HootBody.category body = Some c ∧ c ∉ categories) ∨
  HootBody.title body = Some "" ∨ HootBody.text body = Some "" →
  ∃ h',
    stored db' hootId h' ∧
    r = mkResponse 200 (JHoot (withUser user h')) ∧
    validateHoot h' = false ∧
    ∀ env' user' body',
      createComment env' user' hootId body' db' =
        (db', mkResponse 500 (JErr ValidationError)).
Proof.
  intros Hrun Hst Hbad.
  destruct (updateHoot_ok _ _ _ _ _ _ _ Hrun Hst)
    as (hoot & a & b & Hs & Ha & He & Hb & -> & ->).
  set (h' := applyUpdate env body b hoot).
  assert (Hs' : stored (mkDb (replaceOne (Hoot._id hoot) h' (hoots db))
                          (users db)) hootId h')
    by (by apply stored_after_update).
  assert (Hf : required (Hoot.title h') && required (Hoot.text h') &&
               required (Hoot.category h') &&
               enum categories (Hoot.category h') = false).
  { subst h'. cbn [applyUpdate Hoot.title Hoot.text Hoot.category].
    destruct Hbad as [(c & Hcat & Hout)|[Hbad|Hbad]]; rewrite Hbad || rewrite Hcat.
    - cbn [from_option enum].
      rewrite (bool_decide_eq_false_2 _ Hout). apply andb_false_r.
    - done.
    - cbn. by rewrite andb_false_r. }
  exists h'. split; [done|]. split; [done|]. split.
  - rewrite validateHoot_fields. by rewrite Hf.
  - intros env' user' body'. by apply (createComment_on_invalid _ _ _ _ _ h').
Qed.

Lemma updateHoot_skips_validation_witness :
  ∃ h',
    stored (fst (updateHoot env1 alice (toString oidH)
                   (HootBody.mk None None (Some "Weather") None) db1))
      (toString oidH) h' ∧
    validateHoot h' = false ∧
    ∀ env' user' body',
      createComment env' user' (toString oidH) body'
        (fst (updateHoot env1 alice (toString oidH)
                (HootBody.mk None None (Some "Weather") None) db1)) =
        (fst (updateHoot env1 alice (toString oidH)
                (HootBody.mk None None (Some "Weather") None) db1),
         mkResponse 500 (JErr ValidationError)).
Proof.
  assert (Hbad : (∃ c, HootBody.category
                         (HootBody.mk None None (Some "Weather") None) = Some c ∧
                       c ∉ categories) ∨
                 HootBody.title (HootBody.mk None None (Some "Weather") None)
                   = Some "" ∨
                 HootBody.text (HootBody.mk None None (Some "Weather") None)
                   = Some "").
  { left. exists "Weather". split; [reflexivity|].
    intros H. apply list_elem_of_In in H. vm_compute in H.
    intuition discriminate. }
  destruct (updateHoot_skips_validation env1 alice (toString oidH)
              (HootBody.mk None None (Some "Weather") None) db1
              (fst (updateHoot env1 alice (toString oidH)
                      (HootBody.mk None None (Some "Weather") None) db1))
              (snd (updateHoot env1 alice (toString oidH)
                      (HootBody.mk None None (Some "Weather") None) db1))
              eq_refl eq_refl Hbad) as (h' & Hs & _ & Hv & Hc).
  exists h'. split; [exact Hs|]. split; [exact Hv|exact Hc].
Defined.

Lemma length_deleteOne o l h :
  List.find (hasId o) l = Some h →
  (length (deleteOne o l) + 1 = length l)%nat.
Proof.
  induction l as [|x l IH]; [done|]. cbn [List.find deleteOne].
  destruct (hasId o x); intros H; cbn [length]; [lia|].
  specialize (IH H). lia.
Qed.

Lemma elem_of_deleteOne o l x : x ∈ deleteOne o l → x ∈ l.
Proof.
  induction l as [|y l IH]; [done|]. cbn [deleteOne].
  destruct (hasId o y); [by right|].
  intros [->|H]%elem_of_cons; [by left|right; by apply IH].
Qed.

Lemma elem_of_deleteOne_other o l x :
  x ∈ l → Hoot._id x ≠ o → x ∈ deleteOne o l.
Proof.
  intros Hx Hne. induction l as [|y l IH]; [done|]. cbn [deleteOne].
  apply elem_of_cons in Hx as [->|Hx].
  - unfold hasId. rewrite bool_decide_eq_false_2 by done. by left.
  - destruct (hasId o y); [done|]. right. by apply IH.
Qed.

Lemma deleteOne_gone o l x :
  NoDup (Hoot._id <$> l) → x ∈ deleteOne o l → Hoot._id x ≠ o.
Proof.
  induction l as [|y l IH]; [cbn; by intros _ ?%elem_of_nil|].
  cbn [deleteOne fmap list_fmap].
  intros [Hy Hnd]%NoDup_cons. unfold hasId at 1.
  case_bool_decide as Hid.
  - intros Hx Heq. apply Hy. rewrite Hid, <- Heq.
    by apply list_elem_of_fmap_2.
  - intros [->|Hx]%elem_of_cons; [done|by apply IH].
Qed.

(** X4. When the author sends [DELETE /:hootId] and stored ids are
    unique, the route answers 200 with the deleted hoot as it was
    stored, comments included, and removes that one document: the
    collection is one shorter, every other hoot is still there, no
    hoot is added, and the id now selects nothing, so
    [GET /:hootId] on it answers 200 with null. *)
Theorem deleteHoot_by_author user hootId db hoot a :
  stored db hootId hoot → Hoot.author hoot = Some a →
  denotes (User._id user) a → uniqueIds db →
  ∃ db',
    deleteHoot user hootId db =
      (db', mkResponse 200 (JHoot (plainHoot hoot))) ∧
    users db' = users db ∧
    (length (hoots db') + 1 = length (hoots db))%nat ∧
    (∀ h, h ∈ hoots db → Hoot._id h ≠ Hoot._id hoot → h ∈ hoots db') ∧
    (∀ h, h ∈ hoots db' → h ∈ hoots db) ∧
    absentId Hoot._id hootId (hoots db') ∧
    showHoot hootId db' = (db', mkResponse 200 JNull).
Proof.
  intros Hs Ha Hd Hu. apply denotes_equals in Hd.
  pose proof (stored_id _ _ _ Hs) as Hc.
  exists (mkDb (deleteOne (Hoot._id hoot) (hoots db)) (users db)).
  assert (Habs : absentId Hoot._id hootId (deleteOne (Hoot._id hoot) (hoots db))).
  { intros x Hx. rewrite Hc. intros [= Heq].
    by apply (deleteOne_gone _ _ _ Hu Hx). }
  split.
  { unfold deleteHoot, tryCatch.
    by rewrite (deleteHoot_try_authorized _ _ _ hoot a). }
  split; [done|]. cbn [hoots]. split.
  { destruct Hs as (o & Hc' & Hf).
    assert (o = Hoot._id hoot) as -> by congruence.
    by apply (length_deleteOne _ _ hoot). }
  split; [intros h Hh Hne; by apply elem_of_deleteOne_other|].
  split; [intros h; apply elem_of_deleteOne|].
  split; [done|].
  unfold showHoot, tryCatch, showHoot_try.
  rewrite (bind_run _ _ _ _ _ (findById_cast _ _ _ Hc)). cbn [hoots].
  by rewrite (find_absentId _ _ hootId).
Qed.

Lemma deleteHoot_by_author_witness :
  ∃ db',
    deleteHoot bob (toString oidH2) db2 =
      (db', mkResponse 200 (JHoot (plainHoot hoot2))) ∧
    users db' = users db2 ∧
    (length (hoots db') + 1 = length (hoots db2))%nat ∧
    (∀ h, h ∈ hoots db2 → Hoot._id h ≠ Hoot._id hoot2 → h ∈ hoots db') ∧
    (∀ h, h ∈ hoots db' → h ∈ hoots db2) ∧
    absentId Hoot._id (toString oidH2) (hoots db') ∧
    showHoot (toString oidH2) db' = (db', mkResponse 200 JNull).
Proof.
  apply (deleteHoot_by_author bob (toString oidH2) db2 hoot2 oidB).
  - exists oidH2. split; reflexivity.
  - reflexivity.
  - reflexivity.
  - unfold uniqueIds. apply (bool_decide_unpack _). vm_compute. exact I.
Defined.

(** ** Routes on a hoot that is not there *)

Lemma findById_absent hootId db :
  absentId Hoot._id hootId (hoots db) →
  Hoot_findById hootId db = (db, Throw CastError) ∧
    missingHootError hootId = CastError
  ∨ Hoot_findById hootId db = (db, Ok None) ∧
    missingHootError hootId = TypeError.
Proof.
  intros Habs. unfold missingHootError.
  destruct (castObjectId (IdStr hootId)) as [o|] eqn:Hc.
  - right. rewrite (findById_cast _ o) by done.
    by rewrite (find_absentId o _ hootId).
  - left. by rewrite findById_nocast.
Qed.

(** X5. When [hootId] selects no stored hoot, the five routes that
    load the hoot before acting ([PUT] and [DELETE] on the hoot,
    [POST], [PUT] and [DELETE] on its comments) all answer 500 and
    write nothing: with the cast error of the query when the id is not
    an object id, and otherwise with the type error of reading a
    property of null. *)
Theorem routes_on_missing_hoot env user hootId commentId body cbody db :
  absentId Hoot._id hootId (hoots db) →
  let r := (db, mkResponse 500 (JErr (missingHootError hootId))) in
  updateHoot env user hootId body db = r ∧
  deleteHoot user hootId db = r ∧
  createComment env user hootId cbody db = r ∧
  updateComment env user hootId commentId cbody db = r ∧
  deleteComment env user hootId commentId db = r.
Proof.
  intros Habs r. subst r.
  unfold updateHoot, deleteHoot, createComment, updateComment, deleteComment,
    tryCatch, updateHoot_try, deleteHoot_try, createComment_try,
    updateComment_try, deleteComment_try.
  destruct (findById_absent hootId db Habs) as [[Hf ->]|[Hf ->]].
  - by rewrite !(bind_throw _ _ _ _ _ Hf).
  - by rewrite !(bind_run _ _ _ _ _ Hf).
Qed.

Lemma routes_on_missing_hoot_witness :
  updateHoot env1 alice (toString oidA) (HootBody.mk None None None None) db1
    = (db1, mkResponse 500 (JErr TypeError)) ∧
  deleteHoot alice "not-an-id" db1 = (db1, mkResponse 500 (JErr CastError)).
Proof.
  assert (H1 : absentId Hoot._id (toString oidA) (hoots db1)).
  { intros x Hx. apply list_elem_of_In in Hx.
    destruct Hx as [<-|[]]. vm_compute. discriminate. }
  assert (H2 : absentId Hoot._id "not-an-id" (hoots db1)).
  { intros x Hx. vm_compute. discriminate. }
  destruct (routes_on_missing_hoot env1 alice (toString oidA) ""
              (HootBody.mk None None None None)
              (CommentBody.mk None None) db1 H1) as (Hu & _).
  destruct (routes_on_missing_hoot env1 alice "not-an-id" ""
              (HootBody.mk None None None None)
              (CommentBody.mk None None) db1 H2) as (_ & Hd & _).
  split; [exact Hu|exact Hd].
Defined.

(** ** The read routes *)

(** X6. The read routes never write: whatever the id and the stored
    data, [GET /] and [GET /:hootId] (in both controller files) return
    the database they were given.  [GET /] always answers 200;
    [GET /:hootId] answers 200 when the id is an object id, found or
    not, and 500 otherwise. *)
Theorem read_routes_never_write db hootId :
  fst (indexHoots db) = db ∧
  fst (showHoot hootId db) = db ∧
  fst (showHootAuthorOnly hootId db) = db ∧
  status (snd (indexHoots db)) = 200 ∧
  status (snd (showHoot hootId db)) =
    match castObjectId (IdStr hootId) with Some _ => 200 | None => 500 end ∧
  status (snd (showHootAuthorOnly hootId db)) =
    match castObjectId (IdStr hootId) with Some _ => 200 | None => 500 end.
Proof.
  unfold showHoot, showHootAuthorOnly, tryCatch, showHoot_try,
    showHootAuthorOnly_try.
  destruct (castObjectId (IdStr hootId)) as [o|] eqn:Hc.
  - rewrite !(bind_run _ _ _ _ _ (findById_cast _ _ db Hc)). done.
  - rewrite !(bind_throw _ _ _ _ _ (findById_nocast _ db Hc)). done.
Qed.

Lemma populate_resolves us a :
  (∃ u, populate us (Some a) = AuthorDoc (Some u) ∧ u ∈ us ∧ UserDoc._id u = a) ∨
  (populate us (Some a) = AuthorDoc None ∧ ∀ u, u ∈ us → UserDoc._id u ≠ a).
Proof.
  unfold populate.
  destruct (List.find _ us) as [u|] eqn:Hf.
  - left. exists u. apply List.find_some in Hf as [Hin Hu].
    apply bool_decide_eq_true in Hu. split; [done|].
    split; [by apply list_elem_of_In|done].
  - right. split; [done|]. intros u Hu Heq.
    apply list_elem_of_In in Hu.
    pose proof (List.find_none _ _ Hf u Hu) as Hn. cbn in Hn.
    by apply bool_decide_eq_false in Hn.
Qed.

(** X7. [GET /:hootId] on a stored hoot answers 200 with that hoot and
    its comments in stored order.  The author of the hoot and of every
    comment is resolved against the users: an author id is shown as
    the user document with that id, and as null when no user has it. *)
Theorem showHoot_found db hootId hoot :
  stored db hootId hoot →
  ∃ v,
    showHoot hootId db = (db, mkResponse 200 (JHoot v)) ∧
    hv_hoot v = hoot ∧
    cv_comment <$> hv_comments v = Hoot.comments hoot ∧
    (∀ a, Hoot.author hoot = Some a →
       (∃ u, hv_author v = AuthorDoc (Some u) ∧ u ∈ users db ∧ UserDoc._id u = a) ∨
       (hv_author v = AuthorDoc None ∧ ∀ u, u ∈ users db → UserDoc._id u ≠ a)) ∧
    (∀ i cv a,
       hv_comments v !! i = Some cv →
       Comment.author (cv_comment cv) = Some a →
       (∃ u, cv_author cv = AuthorDoc (Some u) ∧ u ∈ users db ∧ UserDoc._id u = a) ∨
       (cv_author cv = AuthorDoc None ∧ ∀ u, u ∈ users db → UserDoc._id u ≠ a)).
Proof.
  intros Hs. exists (populateAll (users db) hoot). split.
  { unfold showHoot, tryCatch, showHoot_try.
    by rewrite (bind_run _ _ _ _ _ (findById_stored _ _ _ Hs)). }
  split; [done|]. cbn [populateAll hv_comments hv_author]. split.
  { rewrite <- list_fmap_compose. by rewrite <- (list_fmap_id (Hoot.comments hoot)) at 2. }
  split.
  - intros a ->. apply populate_resolves.
  - intros i cv a Hi Ha. rewrite list_lookup_fmap in Hi.
    destruct (Hoot.comments hoot !! i) as [c|]; [|done].
    injection Hi as <-. cbn in *. rewrite Ha. apply populate_resolves.
Qed.

Lemma showHoot_found_witness :
  ∃ v,
    showHoot (toString oidH) db1 = (db1, mkResponse 200 (JHoot v)) ∧
    hv_hoot v = hoot1 ∧
    cv_comment <$> hv_comments v = [c1; c2; c3].
Proof.
  assert (Hs : stored db1 (toString oidH) hoot1).
  { exists oidH. split; reflexivity. }
  destruct (showHoot_found db1 (toString oidH) hoot1 Hs)
    as (v & Hrun & Hh & Hc & _).
  exists v. split; [exact Hrun|]. split; [exact Hh|exact Hc].
Defined.

(** X8. The two versions of [GET /:hootId] in the sources differ only
    in how comment authors are shown.  On every database and id they
    answer with the same status; on a stored hoot both show the same
    document, the same resolved hoot author and the same comments in
    the same order, the second controller file leaving each comment's
    author as the stored id. *)
Theorem showHoot_versions_agree db hootId :
  status (snd (showHootAuthorOnly hootId db)) = status (snd (showHoot hootId db)) ∧
  (∀ e, body (snd (showHoot hootId db)) = JErr e ↔
        body (snd (showHootAuthorOnly hootId db)) = JErr e) ∧
  (body (snd (showHoot hootId db)) = JNull ↔
   body (snd (showHootAuthorOnly hootId db)) = JNull) ∧
  (∀ v, body (snd (showHoot hootId db)) = JHoot v →
     ∃ v', body (snd (showHootAuthorOnly hootId db)) = JHoot v' ∧
           hv_hoot v' = hv_hoot v ∧ hv_author v' = hv_author v ∧
           cv_comment <$> hv_comments v' = cv_comment <$> hv_comments v ∧
           Forall (λ cv, cv_author cv = AuthorRef (Comment.author (cv_comment cv)))
             (hv_comments v')).
Proof.
  unfold showHoot, showHootAuthorOnly, tryCatch, showHoot_try,
    showHootAuthorOnly_try.
  destruct (castObjectId (IdStr hootId)) as [o|] eqn:Hc.
  - rewrite !(bind_run _ _ _ _ _ (findById_cast _ _ db Hc)).
    destruct (List.find (hasId o) (hoots db)) as [h|]; cbn.
    + split; [done|]. split; [done|]. split; [done|].
      intros v [= <-]. eexists. split; [done|].
      cbn. split; [done|]. split; [done|]. split.
      * by rewrite <- !list_fmap_compose.
      * apply Forall_fmap. by apply Forall_true.
    + split; [done|]. split; [done|]. split; [done|]. done.
  - rewrite !(bind_throw _ _ _ _ _ (findById_nocast _ db Hc)). cbn.
    split; [done|]. split; [done|]. split; [done|]. done.
Qed.

(** ** Creating a hoot and reading it back *)

Lemma required_true v : required v = true ↔ nonEmpty v.
Proof.
  unfold required, nonEmpty. destruct v as [s|].
  - split.
    + intros H. exists s. split; [done|].
      by apply negb_true_iff, String.eqb_neq in H.
    + intros (s' & [= <-] & H). by apply negb_true_iff, String.eqb_neq.
  - split; [done|]. by intros (s & ? & _).
Qed.

Lemma enum_true v :
  required v && enum categories v = true ↔ allowedCategory v.
Proof.
  unfold allowedCategory. destruct v as [c|]; cbn [required enum].
  - rewrite andb_true_iff, bool_decide_eq_true. split.
    + intros [_ H]. by exists c.
    + intros (c' & [= <-] & H). split; [|done].
      apply negb_true_iff, String.eqb_neq. intros ->.
      apply list_elem_of_In in H. vm_compute in H. intuition discriminate.
  - split; [done|]. by intros (c & ? & _).
Qed.

Lemma validateHoot_new i t x c a ca ua :
  validateHoot (Hoot.mk i t x c a [] ca ua) = true ↔
  nonEmpty t ∧ nonEmpty x ∧ allowedCategory c.
Proof.
  rewrite validateHoot_fields.
  cbn [Hoot.title Hoot.text Hoot.category Hoot.comments forallb].
  rewrite andb_true_r. split.
  - intros H. apply andb_true_iff in H as [H Hen].
    apply andb_true_iff in H as [H Hc]. apply andb_true_iff in H as [Ht Hx].
    split; [by apply required_true|]. split; [by apply required_true|].
    apply enum_true. by rewrite Hc, Hen.
  - intros (Ht & Hx & Hc). apply required_true in Ht, Hx.
    apply enum_true, andb_true_iff in Hc as [Hc Hen].
    by rewrite Ht, Hx, Hc, Hen.
Qed.

(** What [POST /] does, by cases on the body and the caller id. *)
Lemma createHoot_cases env user body db :
  createHoot env user body db =
    match castObjectId (User._id user) with
    | Some a =>
        let hoot :=
          Hoot.mk (newId env) (HootBody.title body) (HootBody.text body)
            (HootBody.category body) (Some a) [] (now env) (now env) in
        if validateHoot hoot
        then (mkDb (hoots db ++ [hoot]) (users db),
              mkResponse 201 (JHoot (mkHootView hoot (AuthorUser user) [])))
        else (db, mkResponse 500 (JErr ValidationError))
    | None => (db, mkResponse 500 (JErr ValidationError))
    end.
Proof.
  unfold createHoot, tryCatch, createHoot_try, Hoot_create.
  cbn [HootBody.author HootBody.title HootBody.text HootBody.category castAuthor].
  destruct (castObjectId (User._id user)) as [a|]; [|reflexivity].
  cbn [fmap option_fmap option_map]. cbv zeta.
  by destruct (validateHoot _).
Qed.

(** X9. Whenever [POST /] answers 201, exactly one hoot has been
    appended to the collection and nothing else changed.  The stored
    hoot passes validation, carries the body's title, text and
    category (so these are non-empty and the category is one of the
    six), and its author is the id the caller's id casts to, whatever
    [author] key the body carried.  The response shows that hoot with
    [req.user] as author. *)
Theorem createHoot_succeeds env user body db db' r :
  createHoot env user body db = (db', r) →
  status r = 201 →
  ∃ hoot a,
    db' = mkDb (hoots db ++ [hoot]) (users db) ∧
    r = mkResponse 201 (JHoot (withUser user hoot)) ∧
    validateHoot hoot = true ∧
    Hoot.title hoot = HootBody.title body ∧
    Hoot.text hoot = HootBody.text body ∧
    Hoot.category hoot = HootBody.category body ∧
    nonEmpty (HootBody.title body) ∧ nonEmpty (HootBody.text body) ∧
    allowedCategory (HootBody.category body) ∧
    Hoot.author hoot = Some a ∧ denotes (User._id user) a.
Proof.
  rewrite createHoot_cases. unfold denotes. intros Hrun Hst.
  destruct (castObjectId (User._id user)) as [a|];
    [|by injection Hrun as <- <-].
  cbv zeta in Hrun. destruct (validateHoot _) eqn:Hv;
    [|by injection Hrun as <- <-].
  injection Hrun as <- <-. eexists _, a. split; [done|]. split; [done|].
  split; [exact Hv|]. apply validateHoot_new in Hv as (Ht & Hx & Hc).
  by repeat split.
Qed.

Lemma createHoot_succeeds_witness :
  ∃ hoot a,
    fst (createHoot env1 bob
           (HootBody.mk (Some "Hi") (Some "World") (Some "News")
              (Some (IdStr (toString oidA)))) db1)
      = mkDb (hoots db1 ++ [hoot]) (users db1) ∧
    Hoot.title hoot = Some "Hi" ∧
    Hoot.author hoot = Some a ∧ denotes (User._id bob) a.
Proof.
  destruct (createHoot_succeeds env1 bob
              (HootBody.mk (Some "Hi") (Some "World") (Some "News")
                 (Some (IdStr (toString oidA)))) db1
              (fst (createHoot env1 bob
                      (HootBody.mk (Some "Hi") (Some "World") (Some "News")
                         (Some (IdStr (toString oidA)))) db1))
              (snd (createHoot env1 bob
                      (HootBody.mk (Some "Hi") (Some "World") (Some "News")
                         (Some (IdStr (toString oidA)))) db1))
              eq_refl eq_refl)
    as (hoot & a & Hdb & _ & _ & Ht & _ & _ & _ & _ & _ & Ha & Hd).
  exists hoot, a. split; [exact Hdb|]. split; [exact Ht|].
  split; [exact Ha|exact Hd].
Defined.

Lemma find_snoc_fresh o l h :
  (∀ x, x ∈ l → Hoot._id x ≠ o) → Hoot._id h = o →
  List.find (hasId o) (l ++ [h]) = Some h.
Proof.
  intros Hl Hh. induction l as [|x l IH]; cbn [app List.find].
  - unfold hasId. by rewrite bool_decide_eq_true_2.
  - unfold hasId at 1. rewrite bool_decide_eq_false_2 by (apply Hl; by left).
    apply IH. intros y Hy. apply Hl. by right.
Qed.

(** X11. A hoot can be read back under the id it was stored with.
    Whenever [POST /] answers 201 with a hoot whose id is well-formed
    and was not the id of a stored hoot, [GET /:hootId] on the string
    form of that id answers 200 with the same hoot document, its
    authors resolved against the users, and [GET /] lists it. *)
Theorem createHoot_then_show env user body db db' v :
  createHoot env user body db = (db', mkResponse 201 (JHoot v)) →
  wfOid (Hoot._id (hv_hoot v)) →
  (∀ h, h ∈ hoots db → Hoot._id h ≠ Hoot._id (hv_hoot v)) →
  stored db' (toString (Hoot._id (hv_hoot v))) (hv_hoot v) ∧
  showHoot (toString (Hoot._id (hv_hoot v))) db' =
    (db', mkResponse 200 (JHoot (populateAll (users db') (hv_hoot v)))) ∧
  ∃ listed,
    snd (indexHoots db') =
      mkResponse 200 (JHoots (populateAuthor (users db') <$> listed)) ∧
    hv_hoot v ∈ listed.
Proof.
  rewrite createHoot_cases. intros Hrun Hwf Hfresh.
  destruct (castObjectId (User._id user)) as [a|]; [|by injection Hrun as <-].
  cbv zeta in Hrun. destruct (validateHoot _); [|by injection Hrun as <-].
  injection Hrun as <- <-. cbn [hv_hoot] in *.
  match goal with |- stored ?d _ ?h ∧ _ =>
    assert (Hs : stored d (toString (Hoot._id h)) h) end.
  { eexists. split.
    - unfold castObjectId, toString. by apply fromHexString_toHexString.
    - cbn [hoots]. by apply find_snoc_fresh. }
  split; [done|]. split.
  - unfold showHoot, tryCatch, showHoot_try.
    by rewrite (bind_run _ _ _ _ _ (findById_stored _ _ _ Hs)).
  - eexists. split; [reflexivity|].
    unfold sortByCreatedAtDesc. rewrite merge_sort_Permutation. cbn [hoots].
    apply elem_of_app. right. by left.
Qed.

Lemma createHoot_then_show_witness :
  let hoot := Hoot.mk oidC4 (Some "Hi") (Some "World") (Some "News")
                (Some oidB) [] 20 20 in
  let db' := mkDb (hoots db1 ++ [hoot]) (users db1) in
  stored db' (toString oidC4) hoot ∧
  showHoot (toString oidC4) db' =
    (db', mkResponse 200 (JHoot (populateAll (users db') hoot))) ∧
  ∃ listed,
    snd (indexHoots db') =
      mkResponse 200 (JHoots (populateAuthor (users db') <$> listed)) ∧
    hoot ∈ listed.
Proof.
  apply (createHoot_then_show env1 bob
           (HootBody.mk (Some "Hi") (Some "World") (Some "News") None) db1
           (mkDb (hoots db1 ++
                    [Hoot.mk oidC4 (Some "Hi") (Some "World") (Some "News")
                       (Some oidB) [] 20 20]) (users db1))
           (withUser bob (Hoot.mk oidC4 (Some "Hi") (Some "World") (Some "News")
                            (Some oidB) [] 20 20))).
  - reflexivity.
  - reflexivity.
  - intros h Hh. apply list_elem_of_In in Hh.
    destruct Hh as [<-|[]]. vm_compute. discriminate.
Defined.

(** ** The comment routes, by cases *)

Lemma createComment_try_cases env user hootId body db :
  createComment_try env user hootId body db =
    match castObjectId (IdStr hootId) with
    | None => (db, Throw CastError)
    | Some o =>
        match List.find (hasId o) (hoots db) with
        | None => (db, Throw TypeError)
        | Some hoot =>
            match castObjectId (User._id user) with
            | None => (db, Throw ValidationError)
            | Some a =>
                let c := Comment.mk (newId env) (CommentBody.text body) (Some a)
                           (now env) (now env) in
                let h := setComments hoot (Hoot.comments hoot ++ [c]) in
                if validateHoot h
                then (mkDb (replaceOne (Hoot._id hoot) (touch env h) (hoots db))
                        (users db),
                      Ok (mkResponse 201
                            (JComment (mkCommentView c (AuthorUser user)))))
                else (db, Throw ValidationError)
            end
        end
    end.
Proof.
  unfold createComment_try.
  destruct (castObjectId (IdStr hootId)) as [o|] eqn:Hc.
  2:{ by rewrite (bind_throw _ _ _ _ _ (findById_nocast _ db Hc)). }
  rewrite (bind_run _ _ _ _ _ (findById_cast _ _ db Hc)).
  destruct (List.find (hasId o) (hoots db)) as [hoot|] eqn:Hf; [|done].
  rewrite (bind_run _ _ db db hoot) by done.
  unfold castComment. cbn [CommentBody.author CommentBody.text castAuthor].
  destruct (castObjectId (User._id user)) as [a|] eqn:Hu; [|done].
  cbn [fmap option_fmap option_map mbind option_bind]. cbv zeta.
  destruct (validateHoot _) eqn:Hv.
  - rewrite (bind_run _ _ _ _ _ (save_valid env _ db Hv)).
    cbn [touch setComments Hoot.comments Hoot._id].
    by rewrite last_snoc.
  - by rewrite (bind_throw _ _ _ _ _ (save_invalid env _ db Hv)).
Qed.

Lemma save_then_ret env h (r : Response) db :
  (Hoot_save env h;; mret r) db =
    if validateHoot h
    then (mkDb (replaceOne (Hoot._id h) (touch env h) (hoots db)) (users db), Ok r)
    else (db, Throw ValidationError).
Proof.
  destruct (validateHoot h) eqn:Hv.
  - by rewrite (bind_run _ _ _ _ _ (save_valid env _ db Hv)).
  - by rewrite (bind_throw _ _ _ _ _ (save_invalid env _ db Hv)).
Qed.

Lemma updateComment_try_cases env user hootId commentId body db :
  updateComment_try env user hootId commentId body db =
    match castObjectId (IdStr hootId) with
    | None => (db, Throw CastError)
    | Some o =>
        match List.find (hasId o) (hoots db) with
        | None => (db, Throw TypeError)
        | Some hoot =>
            match comments_id (Hoot.comments hoot) commentId with
            | None => (db, Throw TypeError)
            | Some c =>
                match Comment.author c with
                | None => (db, Throw TypeError)
                | Some a =>
                    if strictNeq (toString a) (User._id user)
                    then (db, Ok (commentForbidden "edit"))
                    else
                      let h := setComments hoot
                                 (setCommentText env (Comment._id c)
                                    (CommentBody.text body) (Hoot.comments hoot)) in
                      if validateHoot h
                      then (mkDb (replaceOne (Hoot._id hoot) (touch env h)
                                    (hoots db)) (users db),
                            Ok (mkResponse 200
                                  (JMessage "Comment updated successfully")))
                      else (db, Throw ValidationError)
                end
            end
        end
    end.
Proof.
  destruct (castObjectId (IdStr hootId)) as [o|] eqn:Hc.
  2:{ unfold updateComment_try.
      by rewrite (bind_throw _ _ _ _ _ (findById_nocast _ db Hc)). }
  destruct (List.find (hasId o) (hoots db)) as [hoot|] eqn:Hf.
  2:{ unfold updateComment_try.
      by rewrite (bind_run _ _ _ _ _ (findById_cast _ _ db Hc)), Hf. }
  assert (Hs : stored db hootId hoot) by (by exists o).
  destruct (comments_id (Hoot.comments hoot) commentId) as [c|] eqn:Hi.
  2:{ unfold updateComment_try.
      rewrite (bind_run _ _ _ _ _ (findById_stored _ _ _ Hs)).
      unfold_M. cbn. by rewrite Hi. }
  destruct (Comment.author c) as [a|] eqn:Ha.
  2:{ unfold updateComment_try.
      rewrite (bind_run _ _ _ _ _ (findById_stored _ _ _ Hs)).
      unfold_M. cbn. rewrite Hi. cbn. by rewrite Ha. }
  rewrite (updateComment_try_checked _ _ _ _ _ _ hoot c a) by done.
  destruct (strictNeq _ _); [done|]. by rewrite save_then_ret.
Qed.

Lemma deleteComment_try_cases env user hootId commentId db :
  deleteComment_try env user hootId commentId db =
    match castObjectId (IdStr hootId) with
    | None => (db, Throw CastError)
    | Some o =>
        match List.find (hasId o) (hoots db) with
        | None => (db, Throw TypeError)
        | Some hoot =>
            match comments_id (Hoot.comments hoot) commentId with
            | None => (db, Throw TypeError)
            | Some c =>
                match Comment.author c with
                | None => (db, Throw TypeError)
                | Some a =>
                    if strictNeq (toString a) (User._id user)
                    then (db, Ok (commentForbidden "delete"))
                    else
                      let h := setComments hoot
                                 (comments_remove (Hoot.comments hoot) commentId) in
                      if validateHoot h
                      then (mkDb (replaceOne (Hoot._id hoot) (touch env h)
                                    (hoots db)) (users db),
                            Ok (mkResponse 200
                                  (JMessage "Comment deleted successfully")))
                      else (db, Throw ValidationError)
                end
            end
        end
    end.
Proof.
  destruct (castObjectId (IdStr hootId)) as [o|] eqn:Hc.
  2:{ unfold deleteComment_try.
      by rewrite (bind_throw _ _ _ _ _ (findById_nocast _ db Hc)). }
  destruct (List.find (hasId o) (hoots db)) as [hoot|] eqn:Hf.
  2:{ unfold deleteComment_try.
      by rewrite (bind_run _ _ _ _ _ (findById_cast _ _ db Hc)), Hf. }
  assert (Hs : stored db hootId hoot) by (by exists o).
  destruct (comments_id (Hoot.comments hoot) commentId) as [c|] eqn:Hi.
  2:{ unfold deleteComment_try.
      rewrite (bind_run _ _ _ _ _ (findById_stored _ _ _ Hs)).
      unfold_M. cbn. by rewrite Hi. }
  destruct (Comment.author c) as [a|] eqn:Ha.
  2:{ unfold deleteComment_try.
      rewrite (bind_run _ _ _ _ _ (findById_stored _ _ _ Hs)).
      unfold_M. cbn. rewrite Hi. cbn. by rewrite Ha. }
  rewrite (deleteComment_try_checked _ _ _ _ _ hoot c a) by done.
  destruct (strictNeq _ _); [done|]. by rewrite save_then_ret.
Qed.

Lemma createComment_saves env user hootId body db :
  savesComments env hootId db (fst (createComment env user hootId body db)).
Proof.
  unfold createComment. rewrite fst_tryCatch, createComment_try_cases.
  destruct (castObjectId (IdStr hootId)) as [o|] eqn:Hc; [|by left].
  destruct (List.find (hasId o) (hoots db)) as [hoot|] eqn:Hf; [|by left].
  destruct (castObjectId (User._id user)) as [a|]; [|by left].
  cbv zeta. destruct (validateHoot _) eqn:Hv; [|by left].
  right. eexists hoot, _. split; [by exists o|]. split; [exact Hv|done].
Qed.

Lemma updateComment_saves env user hootId commentId body db :
  savesComments env hootId db
    (fst (updateComment env user hootId commentId body db)).
Proof.
  unfold updateComment. rewrite fst_tryCatch, updateComment_try_cases.
  destruct (castObjectId (IdStr hootId)) as [o|] eqn:Hc; [|by left].
  destruct (List.find (hasId o) (hoots db)) as [hoot|] eqn:Hf; [|by left].
  destruct (comments_id _ _) as [c|]; [|by left].
  destruct (Comment.author c) as [a|]; [|by left].
  destruct (strictNeq _ _); [by left|].
  cbv zeta. destruct (validateHoot _) eqn:Hv; [|by left].
  right. eexists hoot, _. split; [by exists o|]. split; [exact Hv|done].
Qed.

Lemma deleteComment_saves env user hootId commentId db :
  savesComments env hootId db
    (fst (deleteComment env user hootId commentId db)).
Proof.
  unfold deleteComment. rewrite fst_tryCatch, deleteComment_try_cases.
  destruct (castObjectId (IdStr hootId)) as [o|] eqn:Hc; [|by left].
  destruct (List.find (hasId o) (hoots db)) as [hoot|] eqn:Hf; [|by left].
  destruct (comments_id _ _) as [c|]; [|by left].
  destruct (Comment.author c) as [a|]; [|by left].
  destruct (strictNeq _ _); [by left|].
  cbv zeta. destruct (validateHoot _) eqn:Hv; [|by left].
  right. eexists hoot, _. split; [by exists o|]. split; [exact Hv|done].
Qed.

(** ** Writing comments *)

Lemma comments_id_In cs id c :
  comments_id cs id = Some c →
  In c cs ∧ castObjectId (IdStr id) = Some (Comment._id c).
Proof.
  unfold comments_id.
  destruct (castObjectId (IdStr id)) as [o|]; [|done].
  intros [Hin Ho]%List.find_some. apply bool_decide_eq_true in Ho.
  by rewrite Ho.
Qed.

Lemma setCommentText_invalid env c t cs :
  In c cs → required t = false →
  forallb validateComment (setCommentText env (Comment._id c) t cs) = false.
Proof.
  intros Hin Ht. induction cs as [|x cs IH]; [done|].
  cbn [setCommentText]. case_bool_decide as Hx.
  - cbn [forallb]. unfold validateComment at 1. cbn. by rewrite Ht.
  - destruct Hin as [->|Hin]; [done|].
    cbn [forallb]. rewrite (IH Hin). apply andb_false_r.
Qed.

(** X13. A comment needs a text.  On a stored hoot,
    [POST /:hootId/comments] with a missing or empty text answers 500
    with a validation error and writes nothing; so does
    [PUT /:hootId/comments/:commentId] when the comment's author sends
    a missing or empty text, and the comment keeps its old text. *)
Theorem comment_text_required env user hootId commentId body db hoot :
  stored db hootId hoot →
  emptyText (CommentBody.text body) →
  createComment env user hootId body db =
    (db, mkResponse 500 (JErr ValidationError)) ∧
  ∀ c a,
    comments_id (Hoot.comments hoot) commentId = Some c →
    Comment.author c = Some a →
    User._id user = IdStr (toString a) →
    updateComment env user hootId commentId body db =
      (db, mkResponse 500 (JErr ValidationError)).
Proof.
  intros (o & Hc & Hf) Ht. apply required_emptyText in Ht. split.
  - unfold createComment, tryCatch. rewrite createComment_try_cases.
    rewrite Hc, Hf. destruct (castObjectId (User._id user)); [|done].
    cbv zeta. rewrite validateHoot_fields.
    cbn [setComments Hoot.comments]. rewrite forallb_app. cbn [forallb].
    unfold validateComment at 2. cbn [Comment.text]. rewrite Ht.
    by rewrite !andb_false_r.
  - intros c a Hi Ha Hu.
    unfold updateComment, tryCatch. rewrite updateComment_try_cases.
    rewrite Hc, Hf, Hi, Ha, Hu, strictNeq_string_form. cbv zeta.
    rewrite validateHoot_fields. cbn [setComments Hoot.comments].
    apply comments_id_In in Hi as [Hin _].
    rewrite (setCommentText_invalid _ _ _ _ Hin Ht).
    by rewrite andb_false_r.
Qed.

Lemma comment_text_required_witness :
  createComment env1 bob (toString oidH) (CommentBody.mk (Some "") None) db1 =
    (db1, mkResponse 500 (JErr ValidationError)) ∧
  updateComment env1 alice (toString oidH) (toString oidC2)
    (CommentBody.mk (Some "") None) db1 =
    (db1, mkResponse 500 (JErr ValidationError)).
Proof.
  assert (Hs : stored db1 (toString oidH) hoot1).
  { exists oidH. split; reflexivity. }
  assert (He : emptyText (CommentBody.text (CommentBody.mk (Some "") None))).
  { by right. }
  destruct (comment_text_required env1 bob (toString oidH) (toString oidC2)
              (CommentBody.mk (Some "") None) db1 hoot1 Hs He) as [Hc _].
  destruct (comment_text_required env1 alice (toString oidH) (toString oidC2)
              (CommentBody.mk (Some "") None) db1 hoot1 Hs He) as [_ Hu].
  split; [exact Hc|]. exact (Hu c2 oidA eq_refl eq_refl eq_refl).
Defined.

Lemma setCommentText_middle env before c after t :
  (∀ c', c' ∈ before → Comment._id c' ≠ Comment._id c) →
  setCommentText env (Comment._id c) t (before ++ c :: after) =
    before ++
    Comment.mk (Comment._id c) t (Comment.author c) (Comment.createdAt c) (now env)
    :: after.
Proof.
  intros Hb. induction before as [|b before IH]; cbn [app setCommentText].
  - by rewrite bool_decide_eq_true_2.
  - rewrite bool_decide_eq_false_2 by (apply Hb; by left).
    f_equal. apply IH. intros c' Hc'. apply Hb. by right.
Qed.

(** X14. When a comment's author (caller id in string form) sends
    [PUT /:hootId/comments/:commentId] with a non-empty text on a hoot
    that passes validation, the route answers 200 and the hoot is
    stored with as many comments in the same order: the first comment
    with the named id has the text of the body and keeps its id,
    author and [createdAt], and every other comment is as it was. *)
Theorem updateComment_succeeds
    env user hootId commentId body db hoot before c after a :
  stored db hootId hoot →
  validateHoot hoot = true →
  Hoot.comments hoot = before ++ c :: after →
  castObjectId (IdStr commentId) = Some (Comment._id c) →
  (∀ c', c' ∈ before → Comment._id c' ≠ Comment._id c) →
  Comment.author c = Some a →
  User._id user = IdStr (toString a) →
  nonEmpty (CommentBody.text body) →
  ∃ db' saved c',
    updateComment env user hootId commentId body db =
      (db', mkResponse 200 (JMessage "Comment updated successfully")) ∧
    stored db' hootId saved ∧
    Hoot.comments saved = before ++ c' :: after ∧
    Comment._id c' = Comment._id c ∧
    Comment.text c' = CommentBody.text body ∧
    Comment.author c' = Comment.author c ∧
    Comment.createdAt c' = Comment.createdAt c.
Proof.
  intros Hs Hv Hcs Hc Hb Ha Hu Ht.
  set (c' := Comment.mk (Comment._id c) (CommentBody.text body)
               (Comment.author c) (Comment.createdAt c) (now env)).
  assert (Hfound : comments_id (Hoot.comments hoot) commentId = Some c).
  { rewrite Hcs. by apply comments_id_middle. }
  assert (Hset : setCommentText env (Comment._id c) (CommentBody.text body)
                   (Hoot.comments hoot) = before ++ c' :: after).
  { rewrite Hcs. by apply setCommentText_middle. }
  assert (Hv' : validateHoot (setComments hoot (before ++ c' :: after)) = true).
  { apply validateHoot_setComments; [done|].
    apply validateHoot_comments in Hv. rewrite Hcs in Hv.
    rewrite forallb_app in Hv |- *. cbn [forallb] in Hv |- *.
    apply andb_true_iff in Hv as [H1 H2].
    apply andb_true_iff in H2 as [_ H2]. rewrite H1, H2.
    unfold validateComment at 1. cbn [c' Comment.text].
    by rewrite (proj2 (required_true _) Ht). }
  exists (mkDb (replaceOne (Hoot._id hoot)
                  (touch env (setComments hoot (before ++ c' :: after)))
                  (hoots db)) (users db)),
         (touch env (setComments hoot (before ++ c' :: after))), c'.
  split; [|split; [|done]].
  - unfold updateComment, tryCatch. rewrite updateComment_try_cases.
    destruct Hs as (o & Hc' & Hf).
    rewrite Hc', Hf, Hfound, Ha, Hu, strictNeq_string_form. cbv zeta.
    by rewrite Hset, Hv'.
  - by apply (stored_after_save db hootId hoot env
                (setComments hoot (before ++ c' :: after))).
Qed.

Lemma updateComment_succeeds_witness :
  ∃ db' saved c',
    updateComment env1 alice (toString oidH) (toString oidC2)
      (CommentBody.mk (Some "edited") None) db1 =
      (db', mkResponse 200 (JMessage "Comment updated successfully")) ∧
    stored db' (toString oidH) saved ∧
    Hoot.comments saved = [c1] ++ c' :: [c3] ∧
    Comment._id c' = Comment._id c2 ∧
    Comment.text c' = Some "edited" ∧
    Comment.author c' = Comment.author c2 ∧
    Comment.createdAt c' = Comment.createdAt c2.
Proof.
  assert (Hs : stored db1 (toString oidH) hoot1).
  { exists oidH. split; reflexivity. }
  apply (updateComment_succeeds env1 alice (toString oidH) (toString oidC2)
           (CommentBody.mk (Some "edited") None) db1 hoot1 [c1] c2 [c3] oidA Hs);
    try reflexivity.
  - intros c' Hc'. apply list_elem_of_In in Hc'.
    destruct Hc' as [<-|[]]. vm_compute. discriminate.
  - exists "edited". split; [reflexivity|discriminate].
Defined.



(** ** What the write routes keep *)

Lemma Forall2_replaceOne (R : Hoot.t → Hoot.t → Prop) o h' l :
  (∀ x, R x x) →
  (∀ h, List.find (hasId o) l = Some h → R h h') →
  Forall2 R l (replaceOne o h' l).
Proof.
  intros Hrefl. induction l as [|x l IH]; intros Hh; [constructor|].
  cbn [replaceOne List.find] in *. destruct (hasId o x).
  - constructor; [by apply Hh|]. by apply Forall_Forall2_diag, Forall_true.
  - constructor; [done|]. by apply IH.
Qed.

Lemma Forall2_refl_db (R : Hoot.t → Hoot.t → Prop) (l : list Hoot.t) :
  (∀ x, R x x) → Forall2 R l l.
Proof. intros H. by apply Forall_Forall2_diag, Forall_true. Qed.

Lemma savesComments_keeps_own_paths env hootId db db' :
  savesComments env hootId db db' →
  Forall2 ownPathsKept (hoots db) (hoots db') ∧ users db' = users db.
Proof.
  assert (Hrefl : ∀ x, ownPathsKept x x) by (intros x; by repeat split).
  intros [->|(hoot & cs & (o & Hc & Hf) & _ & ->)].
  - split; [by apply Forall2_refl_db|done].
  - split; [|done]. cbn [hoots]. apply Forall2_replaceOne; [done|].
    rewrite <- (find_hasId _ _ _ Hf) in Hf. intros h Hh.
    assert (h = hoot) as -> by congruence. by repeat split.
Qed.

(** X16. The comment routes never touch a hoot's own paths.  After
    [POST], [PUT] or [DELETE] on a comment, whatever the request and
    its outcome, the collection holds the same hoots at the same
    places with the same id, title, text, category, author and
    [createdAt]; only a comment list and an [updatedAt] can differ.
    The users are untouched. *)
Theorem comment_routes_keep_own_paths env user hootId commentId body db :
  let dbC := fst (createComment env user hootId body db) in
  let dbU := fst (updateComment env user hootId commentId body db) in
  let dbD := fst (deleteComment env user hootId commentId db) in
  Forall2 ownPathsKept (hoots db) (hoots dbC) ∧ users dbC = users db ∧
  Forall2 ownPathsKept (hoots db) (hoots dbU) ∧ users dbU = users db ∧
  Forall2 ownPathsKept (hoots db) (hoots dbD) ∧ users dbD = users db.
Proof.
  cbv zeta.
  destruct (savesComments_keeps_own_paths _ _ _ _
              (createComment_saves env user hootId body db)).
  destruct (savesComments_keeps_own_paths _ _ _ _
              (updateComment_saves env user hootId commentId body db)).
  destruct (savesComments_keeps_own_paths _ _ _ _
              (deleteComment_saves env user hootId commentId db)).
  done.
Qed.

Lemma updateHoot_writes env user hootId body db :
  fst (updateHoot env user hootId body db) = db ∨
  ∃ hoot b,
    stored db hootId hoot ∧
    fst (updateHoot env user hootId body db) =
      mkDb (replaceOne (Hoot._id hoot) (applyUpdate env body b hoot) (hoots db))
        (users db).
Proof.
  unfold updateHoot. rewrite fst_tryCatch.
  destruct (castObjectId (IdStr hootId)) as [o|] eqn:Hc.
  2:{ left. unfold updateHoot_try.
      by rewrite (bind_throw _ _ _ _ _ (findById_nocast _ db Hc)). }
  destruct (List.find (hasId o) (hoots db)) as [hoot|] eqn:Hf.
  2:{ left. unfold updateHoot_try.
      by rewrite (bind_run _ _ _ _ _ (findById_cast _ _ db Hc)), Hf. }
  assert (Hs : stored db hootId hoot) by (by exists o).
  destruct (Hoot.author hoot) as [a|] eqn:Ha.
  2:{ left. unfold updateHoot_try.
      rewrite (bind_run _ _ _ _ _ (findById_stored _ _ _ Hs)).
      unfold_M. cbn. by rewrite Ha. }
  destruct (equals a (User._id user)) eqn:He.
  - rewrite (updateHoot_try_authorized _ _ _ _ _ hoot a) by done.
    destruct (castAuthor _) as [b|]; [|by left].
    right. by exists hoot, b.
  - left. by rewrite (updateHoot_try_forbidden _ _ _ _ _ hoot a).
Qed.

Lemma deleteHoot_writes user hootId db :
  fst (deleteHoot user hootId db) = db ∨
  ∃ hoot,
    stored db hootId hoot ∧
    fst (deleteHoot user hootId db) =
      mkDb (deleteOne (Hoot._id hoot) (hoots db)) (users db).
Proof.
  unfold deleteHoot. rewrite fst_tryCatch.
  destruct (castObjectId (IdStr hootId)) as [o|] eqn:Hc.
  2:{ left. unfold deleteHoot_try.
      by rewrite (bind_throw _ _ _ _ _ (findById_nocast _ db Hc)). }
  destruct (List.find (hasId o) (hoots db)) as [hoot|] eqn:Hf.
  2:{ left. unfold deleteHoot_try.
      by rewrite (bind_run _ _ _ _ _ (findById_cast _ _ db Hc)), Hf. }
  assert (Hs : stored db hootId hoot) by (by exists o).
  destruct (Hoot.author hoot) as [a|] eqn:Ha.
  2:{ left. unfold deleteHoot_try.
      rewrite (bind_run _ _ _ _ _ (findById_stored _ _ _ Hs)).
      unfold_M. cbn. by rewrite Ha. }
  destruct (equals a (User._id user)) eqn:He.
  - rewrite (deleteHoot_try_authorized _ _ _ hoot a) by done.
    right. by exists hoot.
  - left. by rewrite (deleteHoot_try_forbidden _ _ _ hoot a).
Qed.

Lemma ids_of_Forall2 (R : Hoot.t → Hoot.t → Prop) l l' :
  (∀ h h', R h h' → Hoot._id h' = Hoot._id h) →
  Forall2 R l l' → Hoot._id <$> l' = Hoot._id <$> l.
Proof.
  intros HR H. induction H as [|h h' l l' Hh Hl IH]; [done|].
  cbn [fmap list_fmap]. rewrite (HR _ _ Hh). f_equal. exact IH.
Qed.

Lemma updateHoot_ids env user hootId body db :
  Hoot._id <$> hoots (fst (updateHoot env user hootId body db))
    = Hoot._id <$> hoots db.
Proof.
  destruct (updateHoot_writes env user hootId body db)
    as [->|(hoot & b & (o & Hc & Hf) & ->)]; [done|].
  cbn [hoots].
  apply (ids_of_Forall2 (λ h h', Hoot._id h' = Hoot._id h)); [done|].
  apply Forall2_replaceOne; [done|].
  rewrite <- (find_hasId _ _ _ Hf) in Hf. intros h Hh.
  by assert (h = hoot) as -> by congruence.
Qed.

(** X17. [PUT /:hootId] writes at most the hoot its [hootId] selects.
    For every request and outcome the collection keeps its length and
    the same ids at the same places, every hoot with another id is
    exactly as it was, comments included, and the users are
    untouched. *)
Theorem updateHoot_frame env user hootId body db :
  let db' := fst (updateHoot env user hootId body db) in
  Hoot._id <$> hoots db' = Hoot._id <$> hoots db ∧
  length (hoots db') = length (hoots db) ∧
  users db' = users db ∧
  ∀ i other,
    hoots db !! i = Some other →
    castObjectId (IdStr hootId) ≠ Some (Hoot._id other) →
    hoots db' !! i = Some other.
Proof.
  cbv zeta. split; [apply updateHoot_ids|].
  destruct (updateHoot_writes env user hootId body db)
    as [->|(hoot & b & Hs & ->)]; [done|].
  cbn [hoots users]. split; [apply length_replaceOne|]. split; [done|].
  intros i other Hi Hne. apply replaceOne_lookup_other; [done|].
  intros Heq. apply Hne. rewrite Heq. by apply (stored_id db).
Qed.

Lemma validateHoot_touch env h : validateHoot (touch env h) = validateHoot h.
Proof. reflexivity. Qed.

Lemma Forall_replaceOne (P : Hoot.t → Prop) o h' l :
  Forall P l → P h' → Forall P (replaceOne o h' l).
Proof.
  intros Hl Hh. induction Hl as [|x l Hx Hl IH]; [constructor|].
  cbn [replaceOne]. destruct (hasId o x); by constructor.
Qed.

Lemma Forall_deleteOne (P : Hoot.t → Prop) o l :
  Forall P l → Forall P (deleteOne o l).
Proof.
  intros Hl. induction Hl as [|x l Hx Hl IH]; [constructor|].
  cbn [deleteOne]. destruct (hasId o x); [done|by constructor].
Qed.

Lemma savesComments_keeps_valid env hootId db db' :
  savesComments env hootId db db' → validDb db → validDb db'.
Proof.
  intros [->|(hoot & cs & _ & Hv & ->)] Hdb; [done|].
  unfold validDb. cbn [hoots]. apply Forall_replaceOne; [done|].
  by rewrite validateHoot_touch.
Qed.

(** X18. Every route except [PUT /:hootId] keeps the stored hoots
    valid.  If every stored hoot passes the schema's validators
    (non-empty title and text, category among the six, every comment
    with a non-empty text), the same holds after [POST /],
    [DELETE /:hootId] and the three comment routes, whatever the
    request and its outcome. *)
Theorem validating_routes_keep_valid env user hootId commentId hbody cbody db :
  validDb db →
  validDb (fst (createHoot env user hbody db)) ∧
  validDb (fst (deleteHoot user hootId db)) ∧
  validDb (fst (createComment env user hootId cbody db)) ∧
  validDb (fst (updateComment env user hootId commentId cbody db)) ∧
  validDb (fst (deleteComment env user hootId commentId db)).
Proof.
  intros Hdb. split; [|split; [|split; [|split]]].
  - rewrite createHoot_cases.
    destruct (castObjectId (User._id user)) as [a|]; [|done]. cbv zeta.
    destruct (validateHoot _) eqn:Hv; [|done].
    unfold validDb. cbn [fst hoots]. apply Forall_app. split; [done|].
    by constructor.
  - destruct (deleteHoot_writes user hootId db) as [->|(hoot & _ & ->)]; [done|].
    by apply Forall_deleteOne.
  - apply (savesComments_keeps_valid env hootId db); [apply createComment_saves|done].
  - apply (savesComments_keeps_valid env hootId db); [apply updateComment_saves|done].
  - apply (savesComments_keeps_valid env hootId db); [apply deleteComment_saves|done].
Qed.

Lemma validating_routes_keep_valid_witness :
  validDb (fst (createHoot env1 bob
                  (HootBody.mk (Some "Hi") (Some "World") (Some "News") None) db2)) ∧
  validDb (fst (deleteHoot bob (toString oidH2) db2)) ∧
  validDb (fst (createComment env1 bob (toString oidH)
                  (CommentBody.mk (Some "nice post") None) db2)) ∧
  validDb (fst (updateComment env1 alice (toString oidH) (toString oidC2)
                  (CommentBody.mk (Some "edited") None) db2)) ∧
  validDb (fst (deleteComment env1 alice (toString oidH) (toString oidC2) db2)).
Proof.
  assert (Hdb : validDb db2).
  { unfold validDb. apply (bool_decide_unpack _). vm_compute. exact I. }
  destruct (validating_routes_keep_valid env1 bob (toString oidH2) ""
              (HootBody.mk (Some "Hi") (Some "World") (Some "News") None)
              (CommentBody.mk None None) db2 Hdb) as (H1 & H2 & _).
  destruct (validating_routes_keep_valid env1 bob (toString oidH) ""
              (HootBody.mk None None None None)
              (CommentBody.mk (Some "nice post") None) db2 Hdb)
    as (_ & _ & H3 & _).
  destruct (validating_routes_keep_valid env1 alice (toString oidH)
              (toString oidC2) (HootBody.mk None None None None)
              (CommentBody.mk (Some "edited") None) db2 Hdb)
    as (_ & _ & _ & H4 & H5).
  repeat split; assumption.
Defined.

Lemma NoDup_ids_deleteOne o l :
  NoDup (Hoot._id <$> l) → NoDup (Hoot._id <$> deleteOne o l).
Proof.
  induction l as [|x l IH]; [done|]. cbn [deleteOne fmap list_fmap].
  intros [Hx Hl]%NoDup_cons. destruct (hasId o x); [done|].
  cbn [fmap list_fmap]. apply NoDup_cons. split; [|by apply IH].
  intros (y & Hy & Hin)%list_elem_of_fmap. apply Hx. rewrite Hy.
  apply list_elem_of_fmap_2. by apply (elem_of_deleteOne o).
Qed.

Lemma comment_routes_keep_ids env user hootId commentId body db :
  Hoot._id <$> hoots (fst (createComment env user hootId body db))
    = Hoot._id <$> hoots db ∧
  Hoot._id <$> hoots (fst (updateComment env user hootId commentId body db))
    = Hoot._id <$> hoots db ∧
  Hoot._id <$> hoots (fst (deleteComment env user hootId commentId db))
    = Hoot._id <$> hoots db.
Proof.
  assert (HR : ∀ h h', ownPathsKept h h' → Hoot._id h' = Hoot._id h).
  { by intros h h' (? & _). }
  destruct (savesComments_keeps_own_paths _ _ _ _
              (createComment_saves env user hootId body db)) as [H1 _].
  destruct (savesComments_keeps_own_paths _ _ _ _
              (updateComment_saves env user hootId commentId body db)) as [H2 _].
  destruct (savesComments_keeps_own_paths _ _ _ _
              (deleteComment_saves env user hootId commentId db)) as [H3 _].
  repeat split; by apply (ids_of_Forall2 ownPathsKept).
Qed.

(** X19. Stored ids stay unique.  If no two stored hoots share an id,
    that still holds after [PUT] and [DELETE] on a hoot and after the
    three comment routes, whatever the request; and after [POST /]
    when the generated id is not the id of a stored hoot. *)
Theorem routes_keep_ids_unique env user hootId commentId hbody cbody db :
  uniqueIds db →
  uniqueIds (fst (updateHoot env user hootId hbody db)) ∧
  uniqueIds (fst (deleteHoot user hootId db)) ∧
  uniqueIds (fst (createComment env user hootId cbody db)) ∧
  uniqueIds (fst (updateComment env user hootId commentId cbody db)) ∧
  uniqueIds (fst (deleteComment env user hootId commentId db)) ∧
  ((∀ h, h ∈ hoots db → Hoot._id h ≠ newId env) →
   uniqueIds (fst (createHoot env user hbody db))).
Proof.
  intros Hu. unfold uniqueIds in *.
  destruct (comment_routes_keep_ids env user hootId commentId cbody db)
    as (HC & HU & HD).
  split; [|split; [|split; [|split; [|split]]]].
  - by rewrite updateHoot_ids.
  - destruct (deleteHoot_writes user hootId db) as [->|(hoot & _ & ->)]; [done|].
    by apply NoDup_ids_deleteOne.
  - by rewrite HC.
  - by rewrite HU.
  - by rewrite HD.
  - intros Hfresh. rewrite createHoot_cases.
    destruct (castObjectId (User._id user)) as [a|]; [|done]. cbv zeta.
    destruct (validateHoot _); [|done]. cbn [fst hoots].
    rewrite fmap_app. apply NoDup_app. split; [done|]. split.
    + intros i (h & -> & Hh)%list_elem_of_fmap Hin.
      apply list_elem_of_singleton in Hin. by apply (Hfresh h).
    + apply NoDup_singleton.
Qed.

Lemma routes_keep_ids_unique_witness :
  uniqueIds (fst (updateHoot env1 alice (toString oidH)
                    (HootBody.mk (Some "Hello") None None None) db2)) ∧
  uniqueIds (fst (deleteHoot bob (toString oidH2) db2)) ∧
  uniqueIds (fst (createComment env1 bob (toString oidH)
                    (CommentBody.mk (Some "nice post") None) db2)) ∧
  uniqueIds (fst (createHoot env1 bob
                    (HootBody.mk (Some "Hi") (Some "World") (Some "News") None)
                    db2)).
Proof.
  assert (Hdb : uniqueIds db2).
  { unfold uniqueIds. apply (bool_decide_unpack _). vm_compute. exact I. }
  destruct (routes_keep_ids_unique env1 alice (toString oidH) ""
              (HootBody.mk (Some "Hello") None None None)
              (CommentBody.mk None None) db2 Hdb) as (H1 & _).
  destruct (routes_keep_ids_unique env1 bob (toString oidH2) ""
              (HootBody.mk (Some "Hi") (Some "World") (Some "News") None)
              (CommentBody.mk None None) db2 Hdb) as (_ & H2 & _ & _ & _ & H4).
  destruct (routes_keep_ids_unique env1 bob (toString oidH) ""
              (HootBody.mk None None None None)
              (CommentBody.mk (Some "nice post") None) db2 Hdb)
    as (_ & _ & H3 & _).
  split; [exact H1|]. split; [exact H2|]. split; [exact H3|].
  apply H4. intros h Hh. apply list_elem_of_In in Hh.
  destruct Hh as [<-|[<-|[]]]; vm_compute; discriminate.
Defined.

(** ** The author check of the comment routes, exactly *)

Lemma strictNeq_true_iff a v :
  strictNeq (toString a) v = true ↔ v ≠ IdStr (toString a).
Proof.
  unfold strictNeq. destruct v as [s|o]; [|done].
  rewrite bool_decide_eq_true. split.
  - intros Hne [= Heq]. by apply Hne.
  - intros Hne Heq. apply Hne. by rewrite Heq.
Qed.

(** X20. On a stored hoot and one of its comments that has an author,
    [PUT] and [DELETE] on the comment answer 403 for every caller id
    other than the lower-case hexadecimal string of the comment's
    author, and only for those: a structured id and a string in
    another letter case are refused even when they name the author.
    A refused request writes nothing. *)
Theorem comment_routes_accept_only_string_form
    env user hootId commentId body db hoot c a :
  stored db hootId hoot →
  comments_id (Hoot.comments hoot) commentId = Some c →
  Comment.author c = Some a →
  (status (snd (updateComment env user hootId commentId body db)) = 403
     ↔ User._id user ≠ IdStr (toString a)) ∧
  (status (snd (deleteComment env user hootId commentId db)) = 403
     ↔ User._id user ≠ IdStr (toString a)) ∧
  (User._id user ≠ IdStr (toString a) →
     fst (updateComment env user hootId commentId body db) = db ∧
     fst (deleteComment env user hootId commentId db) = db).
Proof.
  intros (o & Hc & Hf) Hi Ha.
  unfold updateComment, deleteComment, tryCatch.
  rewrite updateComment_try_cases, deleteComment_try_cases.
  rewrite Hc, Hf, Hi, Ha. cbv zeta.
  rewrite <- strictNeq_true_iff.
  destruct (strictNeq (toString a) (User._id user)).
  - done.
  - split; [|split; [|done]]; (split; [|done]);
      by destruct (validateHoot _).
Qed.

Lemma comment_routes_accept_only_string_form_witness :
  (status (snd (updateComment env1 aliceObj (toString oidH) (toString oidC2)
                  (CommentBody.mk (Some "edited") None) db1)) = 403
     ↔ User._id aliceObj ≠ IdStr (toString oidA)) ∧
  (status (snd (deleteComment env1 aliceObj (toString oidH) (toString oidC2) db1))
     = 403
     ↔ User._id aliceObj ≠ IdStr (toString oidA)) ∧
  (User._id aliceObj ≠ IdStr (toString oidA) →
     fst (updateComment env1 aliceObj (toString oidH) (toString oidC2)
            (CommentBody.mk (Some "edited") None) db1) = db1 ∧
     fst (deleteComment env1 aliceObj (toString oidH) (toString oidC2) db1) = db1).
Proof.
  apply (comment_routes_accept_only_string_form env1 aliceObj (toString oidH)
           (toString oidC2) (CommentBody.mk (Some "edited") None) db1 hoot1 c2 oidA).
  - exists oidH. split; reflexivity.
  - reflexivity.
  - reflexivity.
Defined.

(** ** Adding a comment and reading it back *)

(** X21. A comment that was added is shown.  Whenever
    [POST /:hootId/comments] answers 201 with a comment, [GET /:hootId]
    on the resulting store answers 200 with the hoot's earlier
    comments in their order followed by that comment, which comes last
    with its author resolved against the users. *)
Theorem createComment_then_show env user hootId body db db' cv hoot :
  stored db hootId hoot →
  createComment env user hootId body db =
    (db', mkResponse 201 (JComment cv)) →
  ∃ v,
    showHoot hootId db' = (db', mkResponse 200 (JHoot v)) ∧
    cv_comment <$> hv_comments v = Hoot.comments hoot ++ [cv_comment cv] ∧
    last (hv_comments v) =
      Some (mkCommentView (cv_comment cv)
              (populate (users db') (Comment.author (cv_comment cv)))).
Proof.
  intros Hs Hrun. unfold createComment, tryCatch in Hrun.
  rewrite createComment_try_cases in Hrun.
  pose proof Hs as (o & Hc & Hf). rewrite Hc, Hf in Hrun.
  destruct (castObjectId (User._id user)) as [a|]; [|by injection Hrun as <-].
  cbv zeta in Hrun. destruct (validateHoot _); [|by injection Hrun as <-].
  injection Hrun as <- <-. cbn [cv_comment users].
  match goal with |- context [touch env ?x] => set (h := x) end.
  assert (Hs' : stored (mkDb (replaceOne (Hoot._id hoot) (touch env h) (hoots db))
                          (users db)) hootId (touch env h)).
  { by apply (stored_after_save db hootId hoot env h). }
  exists (populateAll (users db) (touch env h)). split.
  { unfold showHoot, tryCatch, showHoot_try.
    by rewrite (bind_run _ _ _ _ _ (findById_stored _ _ _ Hs')). }
  cbn [populateAll hv_comments touch h setComments Hoot.comments]. split.
  - rewrite <- list_fmap_compose.
    match goal with |- _ = ?l => by rewrite <- (list_fmap_id l) at 2 end.
  - rewrite fmap_app, last_app. reflexivity.
Qed.

Lemma createComment_then_show_witness :
  let c := Comment.mk oidC4 (Some "nice post") (Some oidB) 20 20 in
  let db' := fst (createComment env1 bob (toString oidH)
                    (CommentBody.mk (Some "nice post") None) db1) in
  ∃ v,
    showHoot (toString oidH) db' = (db', mkResponse 200 (JHoot v)) ∧
    cv_comment <$> hv_comments v = Hoot.comments hoot1 ++ [c] ∧
    last (hv_comments v) = Some (mkCommentView c (populate (users db') (Some oidB))).
Proof.
  apply (createComment_then_show env1 bob (toString oidH)
           (CommentBody.mk (Some "nice post") None) db1
           (fst (createComment env1 bob (toString oidH)
                   (CommentBody.mk (Some "nice post") None) db1))
           (mkCommentView (Comment.mk oidC4 (Some "nice post") (Some oidB) 20 20)
              (AuthorUser bob))
           hoot1).
  - exists oidH. split; reflexivity.
  - reflexivity.
Defined.
